(** * Maldives tuna dashboard: the derived-metrics transform

    A shallow embedding of the data tables, [buildRows], [yoy],
    [useRowsWithYoY] and the headline selection of
    [MaldivesTunaDashboard], followed by the properties of the
    specification that concern them.

    JavaScript numbers are IEEE 754 binary64 values; they are modelled by
    [spec_float] with the operations of [SpecFloat] at precision 53 and
    maximal exponent 1024.  JavaScript objects used as tables are finite
    maps from the year to an optional number: a missing key reads as
    [None] (undefined), an explicit null as [Some None]. *)

From Stdlib Require Import ZArith Bool Lia Reals Lra.
From Stdlib Require Import Floats.SpecFloat.
From stdpp Require Import gmap list strings pretty.

Local Open Scope Z_scope.

(** ** JavaScript numbers *)

Module Js.

Abbreviation number := spec_float.

Definition prec : Z := 53.
Definition emax : Z := 1024.

Definition sub : number -> number -> number := SFsub prec emax.
Definition mul : number -> number -> number := SFmul prec emax.
Definition div : number -> number -> number := SFdiv prec emax.
Definition abs : number -> number := SFabs.
Definition leb : number -> number -> bool := SFleb.

(** [x === y] on two numbers: NaN differs from everything, the two
    zeros are equal. *)
Definition strict_eq : number -> number -> bool := SFeqb.

(** An integer literal. *)
Definition ofZ (z : Z) : number := binary_normalize prec emax z 0 false.

(** A decimal literal [m / 10^k], such as [25.4 = lit 254 1]: the
    binary64 value nearest to it. *)
Definition lit (m : Z) (k : Z) : number := div (ofZ m) (ofZ (10 ^ k)).

Definition zero : number := S754_zero false.

Definition is_nan (x : number) : bool :=
  match x with S754_nan => true | _ => false end.

Definition is_infinite (x : number) : bool :=
  match x with S754_infinity _ => true | _ => false end.

Definition is_zero (x : number) : bool :=
  match x with S754_zero _ => true | _ => false end.

(** [Number.isFinite]. *)
Definition is_finite (x : number) : bool :=
  match x with
  | S754_zero _ | S754_finite _ _ _ => true
  | _ => false
  end.

(** The strings [x.toFixed(1)] can return, by shape. *)
Inductive numeral : Type :=
| NumNaN                            (* "NaN" *)
| NumInfinity (neg : bool)          (* "Infinity", "-Infinity" *)
| NumFixed (neg : bool) (n : Z)     (* sign, then the digits of n with a
                                       point before the last one *)
| NumToString (x : number).         (* |x| >= 1e21: ToString(x) *)

(** [10^21 <= m * 2^e], on integers. *)
Definition ge_1e21 (m : positive) (e : Z) : bool :=
  if 0 <=? e then 10 ^ 21 <=? Z.pos m * 2 ^ e
  else 10 ^ 21 * 2 ^ (- e) <=? Z.pos m.

(** The integer [n] for which [n / 10 - m * 2^e] is closest to zero,
    the larger one if there are two. *)
Definition tenths (m : positive) (e : Z) : Z :=
  if 0 <=? e then 10 * Z.pos m * 2 ^ e
  else (20 * Z.pos m + 2 ^ (- e)) / 2 ^ (1 - e).

(** [Number.prototype.toFixed] with one fraction digit. *)
Definition toFixed1 (x : number) : numeral :=
  match x with
  | S754_nan => NumNaN
  | S754_infinity s => NumInfinity s
  | S754_zero _ => NumFixed false 0
  | S754_finite s m e =>
      if ge_1e21 m e then NumToString x
      else NumFixed s (tenths m e)
  end.

(** [Number(s)] on such a string: the binary64 value nearest to the
    decimal, ties to even.  [ToString] round-trips. *)
Definition Number (s : numeral) : number :=
  match s with
  | NumNaN => S754_nan
  | NumInfinity neg => S754_infinity neg
  | NumFixed neg n =>
      match n with
      | Z.pos p => div (S754_finite neg p 0) (S754_finite false 10 0)
      | _ => S754_zero neg
      end
  | NumToString x => x
  end.

(** [Number(x.toFixed(1))]. *)
Definition round1 (x : number) : number := Number (toFixed1 x).

End Js.

Import Js.

(** ** The hard-coded tables *)

Module Data.

(** One table per raw metric, keyed by the year. *)
Record Tables : Type := {
  localPrice : gmap Z (option number);
  globalPrice : gmap Z (option number);
  mifcoLocalPrice : gmap Z (option number);
  revenueMvr : gmap Z (option number);
  netProfitMvr : gmap Z (option number);
  subsidyMvr : gmap Z (option number);
  purchasesTonnes : gmap Z (option number);
  mifcoPurchasesTonnes : gmap Z (option number);
  exportsTonnes : gmap Z (option number);
  totalCatchTonnes : gmap Z (option number)
}.

Definition num (z : Z) : option number := Some (ofZ z).
Definition dec (m : Z) : option number := Some (lit m 1).
Definition null : option number := None.

Definition table (l : list (Z * option number)) : gmap Z (option number) :=
  list_to_map l.

Definition tables : Tables := {|
  localPrice := table
    [(2021, dec 140); (2022, dec 150); (2023, dec 230); (2024, dec 140);
     (2025, dec 140)];
  globalPrice := table
    [(2021, dec 254); (2022, dec 262); (2023, dec 224); (2024, dec 231);
     (2025, dec 241)];
  mifcoLocalPrice := table
    [(2021, dec 140); (2022, dec 150); (2023, dec 250); (2024, dec 140);
     (2025, dec 160)];
  revenueMvr := table
    [(2021, num 1199676000); (2022, num 1634520000);
     (2023, num 2008805560); (2024, num 1075554268); (2025, null)];
  netProfitMvr := table
    [(2021, null); (2022, null); (2023, num 298329409);
     (2024, num (-165639426)); (2025, null)];
  subsidyMvr := table
    [(2021, null); (2022, null); (2023, num 250000000);
     (2024, num 404356780); (2025, num 341814184)];
  purchasesTonnes := table
    [(2021, num 88313); (2022, num 81033); (2023, num 96120);
     (2024, num 53232); (2025, null)];
  mifcoPurchasesTonnes := table
    [(2021, null); (2022, num 55989); (2023, num 62352);
     (2024, num 50588); (2025, null)];
  exportsTonnes := table
    [(2021, num 66480); (2022, num 65580); (2023, num 64350);
     (2024, num 31730); (2025, null)];
  totalCatchTonnes := table
    [(2021, num 144993); (2022, num 155205); (2023, num 160683);
     (2024, num 107666); (2025, null)]
|}.

Definition years : list Z := [2021; 2022; 2023; 2024; 2025].

End Data.

(** ** Rows *)

Module Row.

(** The object literal returned by the callback of [buildRows].  The
    three fields that copy a table entry as it is can be undefined;
    every other numeric field is a number or null. *)
Record t : Type := {
  year : string;
  localPrice : option number;
  mifcoLocalPrice : option number;
  globalPrice : option number;
  priceGap : option number;
  priceGapPct : option number;
  priceGapMifco : option number;
  priceGapMifcoPct : option number;
  revenueMvr : option (option number);
  netProfitMvr : option (option number);
  revenueMvrMillions : option number;
  netProfitMvrMillions : option number;
  subsidyMvr : option (option number);
  subsidyMvrMillions : option number;
  purchasesKt : option number;
  exportsKt : option number;
  cashToBoatsMvrM : option number;
  totalCatchKt : option number;
  mifcoPurchasesKt : option number;
  mifcoShareOfCatchPct : option number;
  notes : option string
}.

End Row.

(** [v ?? null] on a table entry. *)
Definition orNull (v : option (option number)) : option number :=
  default None v.

(** [v != null ? f v : null] on a table entry. *)
Definition ifPresent (v : option (option number)) (f : number -> number)
  : option number :=
  match v with
  | Some (Some x) => Some (f x)
  | _ => None
  end.

(** [a != null && b != null ? f a b : null]. *)
Definition ifPresent2 (a b : option (option number))
    (f : number -> number -> number) : option number :=
  match a, b with
  | Some (Some x), Some (Some y) => Some (f x y)
  | _, _ => None
  end.

(** [String(y)] on an integer: its decimal digits. *)
Definition yearString (y : Z) : string := pretty y.

(** The callback of [years.map] in [buildRows], over given tables. *)
Definition buildRow (T : Data.Tables) (y : Z) : Row.t :=
  let local := Data.localPrice T !! y in
  let global := Data.globalPrice T !! y in
  let revenue := Data.revenueMvr T !! y in
  let netProfit := Data.netProfitMvr T !! y in
  let subsidy := Data.subsidyMvr T !! y in
  let purchT := Data.purchasesTonnes T !! y in
  let mifcoLocal := Data.mifcoLocalPrice T !! y in
  let exportT := Data.exportsTonnes T !! y in
  let catchT := Data.totalCatchTonnes T !! y in
  let mifcoPurchT := Data.mifcoPurchasesTonnes T !! y in
  let cashToBoatsMvrM :=
    ifPresent2 local purchT (fun l p =>
      round1 (div (mul (mul l p) (ofZ 1000)) (ofZ 1000000))) in
  let priceGap :=
    ifPresent2 local global (fun l g => round1 (sub g l)) in
  let priceGapMifco :=
    ifPresent2 mifcoLocal global (fun m g => round1 (sub g m)) in
  {| Row.year := yearString y;
     Row.localPrice := orNull local;
     Row.mifcoLocalPrice := orNull mifcoLocal;
     Row.globalPrice := orNull global;
     Row.priceGap := priceGap;
     Row.priceGapPct :=
       ifPresent2 (Some priceGap) local (fun gap l =>
         round1 (mul (div gap l) (ofZ 100)));
     Row.priceGapMifco := priceGapMifco;
     Row.priceGapMifcoPct :=
       ifPresent2 (Some priceGapMifco) mifcoLocal (fun gap m =>
         round1 (mul (div gap m) (ofZ 100)));
     Row.revenueMvr := revenue;
     Row.netProfitMvr := netProfit;
     Row.revenueMvrMillions :=
       ifPresent revenue (fun v => round1 (div v (ofZ 1000000)));
     Row.netProfitMvrMillions :=
       ifPresent netProfit (fun v => round1 (div v (ofZ 1000000)));
     Row.subsidyMvr := subsidy;
     Row.subsidyMvrMillions :=
       ifPresent subsidy (fun v => round1 (div v (ofZ 1000000)));
     Row.purchasesKt := ifPresent purchT (fun v => round1 (div v (ofZ 1000)));
     Row.exportsKt := ifPresent exportT (fun v => round1 (div v (ofZ 1000)));
     Row.cashToBoatsMvrM := cashToBoatsMvrM;
     Row.totalCatchKt := ifPresent catchT (fun v => round1 (div v (ofZ 1000)));
     Row.mifcoPurchasesKt :=
       ifPresent mifcoPurchT (fun v => round1 (div v (ofZ 1000)));
     Row.mifcoShareOfCatchPct :=
       ifPresent2 mifcoPurchT catchT (fun p c =>
         round1 (mul (div p c) (ofZ 100)));
     Row.notes :=
       if y =? 2025
       then Some "2025 prices YTD; revenue not yet published; subsidy is budgeted"%string
       else if y =? 2024
       then Some "Subsidy recorded net against cost of sales (MVR 4/kg scheme)"%string
       else if y =? 2023
       then Some "Grant recorded in Other Income; fixed price policy in effect (Sep)"%string
       else None |}.

(** [buildRows] over given tables and years, and on the hard-coded ones. *)
Definition buildRowsOf (T : Data.Tables) (ys : list Z) : list Row.t :=
  map (buildRow T) ys.

Definition buildRows : list Row.t := buildRowsOf Data.tables Data.years.

(** ** Year-over-year changes *)

Definition yoy (curr prev : option number) : option number :=
  match curr, prev with
  | Some c, Some p =>
      if strict_eq p zero then None
      else Some (round1 (mul (div (sub c p) p) (ofZ 100)))
  | _, _ => None
  end.

(** A row after the spread [{...row, yoyLocal, ...}]. *)
Record RowYoY : Type := {
  row : Row.t;
  yoyLocal : option number;
  yoyGlobal : option number;
  yoyRevenue : option number;
  yoyNetProfit : option number;
  yoySubsidy : option number
}.

(** [prev?.field ?? null]. *)
Definition prevField (prev : option Row.t) (field : Row.t -> option number)
  : option number :=
  match prev with
  | Some r => field r
  | None => None
  end.

(** The callback of [rows.map] in [useRowsWithYoY]. *)
Definition addYoY (rows : list Row.t) (idx : nat) (r : Row.t) : RowYoY :=
  let prev := if (0 <? idx)%nat then rows !! (idx - 1)%nat else None in
  {| row := r;
     yoyLocal := yoy (Row.localPrice r) (prevField prev Row.localPrice);
     yoyGlobal := yoy (Row.globalPrice r) (prevField prev Row.globalPrice);
     yoyRevenue :=
       yoy (Row.revenueMvrMillions r) (prevField prev Row.revenueMvrMillions);
     yoyNetProfit :=
       yoy (Row.netProfitMvrMillions r)
           (prevField prev Row.netProfitMvrMillions);
     yoySubsidy :=
       yoy (Row.subsidyMvrMillions r) (prevField prev Row.subsidyMvrMillions)
  |}.

Definition rowsWithYoY (rows : list Row.t) : list RowYoY :=
  imap (addYoY rows) rows.

(** The whole transform over given tables and years. *)
Definition transform (T : Data.Tables) (ys : list Z) : list RowYoY :=
  rowsWithYoY (buildRowsOf T ys).

(** [useMemo] caches; the value is that of its callback. *)
Definition useRowsWithYoY : list RowYoY := rowsWithYoY buildRows.

(** ** The headline of the dashboard *)

Module Dashboard.

(** [data[i]] where [i] may be negative. *)
Definition at_index (data : list RowYoY) (i : Z) : option RowYoY :=
  if i <? 0 then None else data !! Z.to_nat i.

Definition latest (data : list RowYoY) : option RowYoY :=
  at_index data (Z.of_nat (length data) - 2).

Definition prev (data : list RowYoY) : option RowYoY :=
  at_index data (Z.of_nat (length data) - 3).

(** [r?.field ?? null] and [r?.field != null]. *)
Definition field (r : option RowYoY) (f : Row.t -> option number)
  : option number :=
  match r with
  | Some x => f (row x)
  | None => None
  end.

Definition priceCollapse (data : list RowYoY) : option number :=
  yoy (field (latest data) Row.localPrice) (field (prev data) Row.localPrice).

(** The four headline metrics share one expression, written out in the
    component for each of them; it has no guard on a zero
    denominator. *)
Definition change (data : list RowYoY) (f : Row.t -> option number)
  : option number :=
  match field (latest data) f, field (prev data) f with
  | Some l, Some p => Some (round1 (mul (div (sub l p) p) (ofZ 100)))
  | _, _ => None
  end.

Definition revenueDrop (data : list RowYoY) : option number :=
  change data Row.revenueMvrMillions.
Definition subsidyYoY (data : list RowYoY) : option number :=
  change data Row.subsidyMvrMillions.
Definition purchasesDrop (data : list RowYoY) : option number :=
  change data Row.purchasesKt.
Definition exportsDrop (data : list RowYoY) : option number :=
  change data Row.exportsKt.

(** What the KPI cards and the hero strip show. *)
Record Headline : Type := {
  headlineYear : option string;
  latestLocalPrice : option number;
  latestGlobalPrice : option number;
  latestRevenue : option number;
  latestSubsidy : option number;
  kpiPriceCollapse : option number;
  kpiRevenueDrop : option number;
  kpiSubsidyYoY : option number;
  kpiPurchasesDrop : option number;
  kpiExportsDrop : option number
}.

Definition headline (data : list RowYoY) : Headline :=
  {| headlineYear := (Row.year ∘ row) <$> latest data;
     latestLocalPrice := field (latest data) Row.localPrice;
     latestGlobalPrice := field (latest data) Row.globalPrice;
     latestRevenue := field (latest data) Row.revenueMvrMillions;
     latestSubsidy := field (latest data) Row.subsidyMvrMillions;
     kpiPriceCollapse := priceCollapse data;
     kpiRevenueDrop := revenueDrop data;
     kpiSubsidyYoY := subsidyYoY data;
     kpiPurchasesDrop := purchasesDrop data;
     kpiExportsDrop := exportsDrop data |}.

End Dashboard.

(** ** Vocabulary of the properties *)

(** The percentage change from [p] to [l] as the headline writes it for
    its four changes: null when a value is null, no other guard. *)
Definition pctChange (l p : option number) : option number :=
  match l, p with
  | Some a, Some b => Some (round1 (mul (div (sub a b) b) (ofZ 100)))
  | _, _ => None
  end.

(** A table entry is present when it is a number: neither undefined nor
    null. *)
Definition present (v : option (option number)) : Prop :=
  exists x, v = Some (Some x).

Definition absent (v : option (option number)) : Prop :=
  v = None \/ v = Some None.

(** A derived value [d] follows its operands: it is a number exactly when
    all of them are present, and null as soon as one is absent. *)
Definition follows (d : option number) (operands : list (option (option number)))
  : Prop :=
  (is_Some d <-> Forall present operands) /\
  (Exists absent operands -> d = None).

(** The five metrics that get a year-over-year field. *)
Inductive Metric : Type :=
| MLocal | MGlobal | MRevenue | MNetProfit | MSubsidy.

Definition current (m : Metric) : Row.t -> option number :=
  match m with
  | MLocal => Row.localPrice
  | MGlobal => Row.globalPrice
  | MRevenue => Row.revenueMvrMillions
  | MNetProfit => Row.netProfitMvrMillions
  | MSubsidy => Row.subsidyMvrMillions
  end.

Definition yoyOf (m : Metric) : RowYoY -> option number :=
  match m with
  | MLocal => yoyLocal
  | MGlobal => yoyGlobal
  | MRevenue => yoyRevenue
  | MNetProfit => yoyNetProfit
  | MSubsidy => yoySubsidy
  end.

(** The value of metric [m] in the row before index [idx], null when
    there is none. *)
Definition previous (m : Metric) (rows : list Row.t) (idx : nat)
  : option number :=
  match idx with
  | O => None
  | S i => prevField (rows !! i) (current m)
  end.

(** Two sets of tables agree on the years [ys]. *)
Definition agree_on (ys : list Z) (T1 T2 : Data.Tables) : Prop :=
  forall y, y ∈ ys ->
    Data.localPrice T1 !! y = Data.localPrice T2 !! y /\
    Data.globalPrice T1 !! y = Data.globalPrice T2 !! y /\
    Data.mifcoLocalPrice T1 !! y = Data.mifcoLocalPrice T2 !! y /\
    Data.revenueMvr T1 !! y = Data.revenueMvr T2 !! y /\
    Data.netProfitMvr T1 !! y = Data.netProfitMvr T2 !! y /\
    Data.subsidyMvr T1 !! y = Data.subsidyMvr T2 !! y /\
    Data.purchasesTonnes T1 !! y = Data.purchasesTonnes T2 !! y /\
    Data.mifcoPurchasesTonnes T1 !! y = Data.mifcoPurchasesTonnes T2 !! y /\
    Data.exportsTonnes T1 !! y = Data.exportsTonnes T2 !! y /\
    Data.totalCatchTonnes T1 !! y = Data.totalCatchTonnes T2 !! y.

(** The round trip of the specification on a monetary value [v], all in
    binary64: scale to millions as [buildRows] does, scale back, and take
    the distance to [v]. *)
Definition toMillions (v : number) : number :=
  round1 (div v (ofZ 1000000)).

Definition roundTripError (v : number) : number :=
  abs (sub (mul (toMillions v) (ofZ 1000000)) v).

(** The present entries of a table at the hard-coded years. *)
Definition presentValues (t : gmap Z (option number)) : list number :=
  omap (fun y => orNull (t !! y)) Data.years.

Definition monetaryValues : list number :=
  presentValues (Data.revenueMvr Data.tables) ++
  presentValues (Data.netProfitMvr Data.tables) ++
  presentValues (Data.subsidyMvr Data.tables).

(** A table entry reaches the row unchanged: the same number, or null
    when the entry is undefined or null. *)
Definition passedThrough (raw : option (option number)) (out : option number)
  : Prop :=
  match raw with
  | Some (Some x) => out = Some x
  | _ => out = None
  end.

(** The five year-over-year fields of a row. *)
Definition yoyFields (r : RowYoY) : list (option number) :=
  [yoyLocal r; yoyGlobal r; yoyRevenue r; yoyNetProfit r; yoySubsidy r].

(** The hard-coded tables with one more entry, at a year that is not
    listed in [years]. *)
Definition tablesWith2030 : Data.Tables :=
  {| Data.localPrice := <[2030 := Data.dec 150]> (Data.localPrice Data.tables);
     Data.globalPrice := Data.globalPrice Data.tables;
     Data.mifcoLocalPrice := Data.mifcoLocalPrice Data.tables;
     Data.revenueMvr := Data.revenueMvr Data.tables;
     Data.netProfitMvr := Data.netProfitMvr Data.tables;
     Data.subsidyMvr := Data.subsidyMvr Data.tables;
     Data.purchasesTonnes := Data.purchasesTonnes Data.tables;
     Data.mifcoPurchasesTonnes := Data.mifcoPurchasesTonnes Data.tables;
     Data.exportsTonnes := Data.exportsTonnes Data.tables;
     Data.totalCatchTonnes := Data.totalCatchTonnes Data.tables |}.

(** ** Real values of binary64 numbers *)

Definition pow2 (e : Z) : R := powerRZ 2 e.

(** The magnitude and the value of a number as reals; 0 for what has
    none. *)
Definition Fabs (z : number) : R :=
  match z with
  | S754_finite _ m e => (IZR (Z.pos m) * pow2 e)%R
  | _ => 0%R
  end.

Definition Fsign (z : number) : bool :=
  match z with
  | S754_zero s | S754_infinity s | S754_finite s _ _ => s
  | S754_nan => false
  end.

Definition F2R (z : number) : R :=
  if Fsign z then (- Fabs z)%R else Fabs z.

Definition Fexp_le (z : number) (b : Z) : Prop :=
  match z with
  | S754_finite _ _ e => e <= b
  | _ => True
  end.

(** [fexp] at precision 53 and maximal exponent 1024. *)
Definition fexp64 (e : Z) : Z := Z.max (e - 53) (-1074).

(** The real [x] sits at the position recorded by [mrs] on the grid of
    step [2^e]: on the point [m], strictly below, on or above the middle
    of [m] and [m + 1]. *)
Definition located (x : R) (mrs : shr_record) (e : Z) : Prop :=
  let m := IZR (shr_m mrs) in
  match shr_r mrs, shr_s mrs with
  | false, false => x = (m * pow2 e)%R
  | false, true => (m * pow2 e < x < (m + 1/2) * pow2 e)%R
  | true, false => x = ((m + 1/2) * pow2 e)%R
  | true, true => ((m + 1/2) * pow2 e < x < (m + 1) * pow2 e)%R
  end.

(** ** The rest of the component *)

(** [a + b]. *)
Definition add : number -> number -> number := SFadd prec emax.

(** [Number.prototype.toFixed] with [d] fraction digits, and [Number] on
    its result.  The strings have the shapes of [numeral], with the number
    of fraction digits kept beside the digits. *)
Inductive decimal : Type :=
| DecNaN
| DecInfinity (neg : bool)
| DecFixed (neg : bool) (n : Z) (d : nat)
| DecToString (x : number).

(** The integer [n] for which [n / 10^d - m * 2^e] is closest to zero,
    the larger one if there are two. *)
Definition scaled (d : nat) (m : positive) (e : Z) : Z :=
  if 0 <=? e then 10 ^ Z.of_nat d * Z.pos m * 2 ^ e
  else (2 * 10 ^ Z.of_nat d * Z.pos m + 2 ^ (- e)) / 2 ^ (1 - e).

(** What [toFixed] returns once the number of digits is known to be in
    range. *)
Definition fixed (d : nat) (x : number) : decimal :=
  match x with
  | S754_nan => DecNaN
  | S754_infinity s => DecInfinity s
  | S754_zero _ => DecFixed false 0 d
  | S754_finite s m e =>
      if ge_1e21 m e then DecToString x
      else DecFixed s (scaled d m e) d
  end.

(** A call either returns or throws a RangeError. *)
Inductive completion (A : Type) : Type :=
| Normal (a : A)
| RangeError.

Arguments Normal {A} a.
Arguments RangeError {A}.

(** [x.toFixed(d)]: more than 100 digits are refused before the number is
    looked at. *)
Definition toFixed (d : nat) (x : number) : completion decimal :=
  if (100 <? d)%nat then RangeError else Normal (fixed d x).

Definition NumberOf (s : decimal) : number :=
  match s with
  | DecNaN => S754_nan
  | DecInfinity neg => S754_infinity neg
  | DecFixed neg n d =>
      match n with
      | Z.pos p =>
          div (S754_finite neg p 0)
              (S754_finite false (Z.to_pos (10 ^ Z.of_nat d)) 0)
      | _ => S754_zero neg
      end
  | DecToString x => x
  end.

(** [Number(x.toFixed(d))]; what [toFixed] throws goes through. *)
Definition roundTo (d : nat) (x : number) : completion number :=
  match toFixed d x with
  | Normal s => Normal (NumberOf s)
  | RangeError => RangeError
  end.

(** [Number(x.toFixed(2))], which throws nothing: two digits are in
    range. *)
Definition round2 (x : number) : number := NumberOf (fixed 2 x).

(** [vals.length ? Number((vals.reduce((a, b) => a + b, 0) / vals.length)
    .toFixed(1)) : null], the expression of both averages of the
    component. *)
Definition average (vals : list number) : option number :=
  match vals with
  | [] => None
  | _ =>
      Some (round1 (div (fold_left add vals zero)
                        (ofZ (Z.of_nat (length vals)))))
  end.

Module Summary.

(** [data.find((r) => r.year === label)]. *)
Definition findYear (data : list RowYoY) (label : string) : option RowYoY :=
  List.find (fun r => String.eqb (Row.year (row r)) label) data.

(** [data.find((r) => r.year === label)?.revenueMvrMillions ?? null]. *)
Definition rev (data : list RowYoY) (label : string) : option number :=
  Dashboard.field (findYear data label) Row.revenueMvrMillions.

Definition rev21 (data : list RowYoY) : option number := rev data "2021".
Definition rev22 (data : list RowYoY) : option number := rev data "2022".
Definition rev23 (data : list RowYoY) : option number := rev data "2023".
Definition rev24 (data : list RowYoY) : option number := rev data "2024".

Definition revenueLossMvrM (data : list RowYoY) : option number :=
  match rev23 data, rev24 data with
  | Some a, Some b => Some (round1 (sub a b))
  | _, _ => None
  end.

Definition revenueLossMvrBn (data : list RowYoY) : option number :=
  match revenueLossMvrM data with
  | Some m => Some (round2 (div m (ofZ 1000)))
  | None => None
  end.

Definition yoy21to22 (data : list RowYoY) : option number :=
  match rev21 data, rev22 data with
  | Some a, Some b => Some (div (sub b a) a)
  | _, _ => None
  end.

Definition yoy22to23 (data : list RowYoY) : option number :=
  match rev22 data, rev23 data with
  | Some a, Some b => Some (div (sub b a) a)
  | _, _ => None
  end.

Definition avgYoYPct (data : list RowYoY) : option number :=
  match yoy21to22 data, yoy22to23 data with
  | Some a, Some b => Some (round1 (mul (div (add a b) (ofZ 2)) (ofZ 100)))
  | _, _ => None
  end.

Definition avgAnnualIncreaseMvrM (data : list RowYoY) : option number :=
  match rev21 data, rev23 data with
  | Some a, Some c => Some (round1 (div (sub c a) (ofZ 2)))
  | _, _ => None
  end.

(** The immediately invoked function of [avgGapEx2023]. *)
Definition avgGapEx2023 (data : list RowYoY) : option number :=
  let rows :=
    List.filter (fun r => negb (String.eqb (Row.year (row r)) "2023")) data in
  let gaps := omap (fun r => Row.priceGap (row r)) rows in
  average gaps.

(** The average MIFCO quay price of the extra KPI card; it reads the
    table, not the rows. *)
Definition mifcoAveragePrice (T : Data.Tables) : option number :=
  let vals :=
    omap (fun y => orNull (Data.mifcoLocalPrice T !! y))
         [2021; 2022; 2023; 2024] in
  average vals.

End Summary.

(** ** The price axis *)

(** One step of [Math.min] and of [Math.max] over their arguments. *)
Definition min_step (lowest x : number) : number :=
  if is_nan lowest then lowest
  else if is_nan x then S754_nan
  else match x, lowest with
       | S754_zero true, S754_zero false => x
       | _, _ => if SFltb x lowest then x else lowest
       end.

Definition max_step (highest x : number) : number :=
  if is_nan highest then highest
  else if is_nan x then S754_nan
  else match x, highest with
       | S754_zero false, S754_zero true => x
       | _, _ => if SFltb highest x then x else highest
       end.

Definition Math_min (args : list number) : number :=
  fold_left min_step args (S754_infinity false).

Definition Math_max (args : list number) : number :=
  fold_left max_step args (S754_infinity true).

(** [v ?? d]. *)
Definition orElse (v : option number) (d : number) : number := default d v.

(** The [domain] of the left axis of the price chart: the lowest price of
    the rows less 2, the highest plus 2. *)
Definition lowestPrice (data : list RowYoY) : number :=
  Math_min
    (map (fun d => Math_min
            [orElse (Row.localPrice (row d)) (S754_infinity false);
             orElse (Row.globalPrice (row d)) (S754_infinity false)])
         data).

Definition highestPrice (data : list RowYoY) : number :=
  Math_max
    (map (fun d => Math_max
            [orElse (Row.localPrice (row d)) (S754_infinity true);
             orElse (Row.globalPrice (row d)) (S754_infinity true)])
         data).

Definition priceAxisMin (data : list RowYoY) : number :=
  sub (lowestPrice data) (ofZ 2).

Definition priceAxisMax (data : list RowYoY) : number :=
  add (highestPrice data) (ofZ 2).

(** A price drawn on the left axis: the local or the global price of a
    row. *)
Definition priceOf (d : RowYoY) (p : number) : Prop :=
  Row.localPrice (row d) = Some p \/ Row.globalPrice (row d) = Some p.

(** ** The switches *)

Module Toggles.

(** The four [useState(true)] flags of the component. *)
Record t : Type := {
  showRevenue : bool;
  showSubsidy : bool;
  showGlobal : bool;
  showMifcoPrice : bool
}.

Definition initial : t :=
  {| showRevenue := true; showSubsidy := true;
     showGlobal := true; showMifcoPrice := true |}.

Inductive switch : Type := global | mifcoPrice | revenue | subsidy.

(** A click on a [Switch]: [onCheckedChange(!checked)], with the setter of
    its flag. *)
Definition click (id : switch) (st : t) : t :=
  match id with
  | global =>
      {| showRevenue := showRevenue st; showSubsidy := showSubsidy st;
         showGlobal := negb (showGlobal st);
         showMifcoPrice := showMifcoPrice st |}
  | mifcoPrice =>
      {| showRevenue := showRevenue st; showSubsidy := showSubsidy st;
         showGlobal := showGlobal st;
         showMifcoPrice := negb (showMifcoPrice st) |}
  | revenue =>
      {| showRevenue := negb (showRevenue st); showSubsidy := showSubsidy st;
         showGlobal := showGlobal st;
         showMifcoPrice := showMifcoPrice st |}
  | subsidy =>
      {| showRevenue := showRevenue st;
         showSubsidy := negb (showSubsidy st);
         showGlobal := showGlobal st;
         showMifcoPrice := showMifcoPrice st |}
  end.

(** [{flag && <Line dataKey=... />}]. *)
Definition when (flag : bool) (dataKey : string) : list string :=
  if flag then [dataKey] else [].

(** The data keys of the series that the three charts draw, in the order of
    the markup. *)
Definition priceChart (st : t) : list string :=
  ["localPrice"%string] ++ when (showMifcoPrice st) "mifcoLocalPrice"
  ++ when (showGlobal st) "globalPrice" ++ ["subsidyMvrMillions"%string].

Definition purchasesChart (st : t) : list string :=
  ["mifcoPurchasesKt"%string; "totalCatchKt"%string].

Definition exportsChart (st : t) : list string :=
  ["exportsKt"%string] ++ when (showRevenue st) "revenueMvrMillions".

Definition charts (st : t) : list (list string) :=
  [priceChart st; purchasesChart st; exportsChart st].

End Toggles.

(** ** Vocabulary of the further properties *)

(** The three percentages of a row that divide by a table entry. *)
Inductive Ratio : Type := GapPct | GapMifcoPct | ShareOfCatchPct.

Definition denominator (q : Ratio) (T : Data.Tables) : gmap Z (option number) :=
  match q with
  | GapPct => Data.localPrice T
  | GapMifcoPct => Data.mifcoLocalPrice T
  | ShareOfCatchPct => Data.totalCatchTonnes T
  end.

Definition numerator (q : Ratio) (T : Data.Tables) : gmap Z (option number) :=
  match q with
  | GapPct | GapMifcoPct => Data.globalPrice T
  | ShareOfCatchPct => Data.mifcoPurchasesTonnes T
  end.

Definition ratioField (q : Ratio) : Row.t -> option number :=
  match q with
  | GapPct => Row.priceGapPct
  | GapMifcoPct => Row.priceGapMifcoPct
  | ShareOfCatchPct => Row.mifcoShareOfCatchPct
  end.

(** The value is not a zero: null, or a number other than 0 and -0. *)
Definition notZero (v : option number) : Prop :=
  forall p, v = Some p -> is_zero p = false.

(** The tables with a revenue of 0 for 2023. *)
Definition tablesZeroRevenue2023 : Data.Tables :=
  {| Data.localPrice := Data.localPrice Data.tables;
     Data.globalPrice := Data.globalPrice Data.tables;
     Data.mifcoLocalPrice := Data.mifcoLocalPrice Data.tables;
     Data.revenueMvr := <[2023 := Data.num 0]> (Data.revenueMvr Data.tables);
     Data.netProfitMvr := Data.netProfitMvr Data.tables;
     Data.subsidyMvr := Data.subsidyMvr Data.tables;
     Data.purchasesTonnes := Data.purchasesTonnes Data.tables;
     Data.mifcoPurchasesTonnes := Data.mifcoPurchasesTonnes Data.tables;
     Data.exportsTonnes := Data.exportsTonnes Data.tables;
     Data.totalCatchTonnes := Data.totalCatchTonnes Data.tables |}.

(** The tables with a revenue of 0 for 2021. *)
Definition tablesZeroRevenue2021 : Data.Tables :=
  {| Data.localPrice := Data.localPrice Data.tables;
     Data.globalPrice := Data.globalPrice Data.tables;
     Data.mifcoLocalPrice := Data.mifcoLocalPrice Data.tables;
     Data.revenueMvr := <[2021 := Data.num 0]> (Data.revenueMvr Data.tables);
     Data.netProfitMvr := Data.netProfitMvr Data.tables;
     Data.subsidyMvr := Data.subsidyMvr Data.tables;
     Data.purchasesTonnes := Data.purchasesTonnes Data.tables;
     Data.mifcoPurchasesTonnes := Data.mifcoPurchasesTonnes Data.tables;
     Data.exportsTonnes := Data.exportsTonnes Data.tables;
     Data.totalCatchTonnes := Data.totalCatchTonnes Data.tables |}.

(** The tables with another MIFCO price for 2025. *)
Definition tablesMifco2025 : Data.Tables :=
  {| Data.localPrice := Data.localPrice Data.tables;
     Data.globalPrice := Data.globalPrice Data.tables;
     Data.mifcoLocalPrice :=
       <[2025 := Data.dec 999]> (Data.mifcoLocalPrice Data.tables);
     Data.revenueMvr := Data.revenueMvr Data.tables;
     Data.netProfitMvr := Data.netProfitMvr Data.tables;
     Data.subsidyMvr := Data.subsidyMvr Data.tables;
     Data.purchasesTonnes := Data.purchasesTonnes Data.tables;
     Data.mifcoPurchasesTonnes := Data.mifcoPurchasesTonnes Data.tables;
     Data.exportsTonnes := Data.exportsTonnes Data.tables;
     Data.totalCatchTonnes := Data.totalCatchTonnes Data.tables |}.

(** The place of a number in the order of [SFcompare]: the class (the
    infinities, the sign of a finite number, zero), then the exponent, then
    the mantissa, the last two reversed below zero. *)
Definition rank (x : number) : Z * Z * Z :=
  match x with
  | S754_nan => (0, 0, 0)
  | S754_zero _ => (0, 0, 0)
  | S754_infinity true => (-2, 0, 0)
  | S754_infinity false => (2, 0, 0)
  | S754_finite true m e => (-1, - e, - Z.pos m)
  | S754_finite false m e => (1, e, Z.pos m)
  end.

Definition rank_lt (a b : Z * Z * Z) : Prop :=
  let '(a1, a2, a3) := a in
  let '(b1, b2, b3) := b in
  a1 < b1 \/ (a1 = b1 /\ (a2 < b2 \/ (a2 = b2 /\ a3 < b3))).

Definition rank_le (a b : Z * Z * Z) : Prop :=
  let '(a1, a2, a3) := a in
  let '(b1, b2, b3) := b in
  a1 < b1 \/ (a1 = b1 /\ (a2 < b2 \/ (a2 = b2 /\ a3 <= b3))).

(** * Properties *)

(** ** Absence in the derived metrics of a row *)

Lemma follows_ifPresent (v : option (option number)) (f : number -> number) :
  follows (ifPresent v f) [v].
Proof.
  unfold follows, present, absent.
  rewrite Forall_cons, Forall_nil, Exists_cons, Exists_nil.
  destruct v as [[x|]|]; simpl; unfold is_Some;
    firstorder (eauto; congruence).
Qed.

Lemma follows_ifPresent2 (a b : option (option number))
    (f : number -> number -> number) :
  follows (ifPresent2 a b f) [a; b].
Proof.
  unfold follows, present, absent.
  rewrite !Forall_cons, Forall_nil, !Exists_cons, Exists_nil.
  destruct a as [[x|]|], b as [[y|]|]; simpl; unfold is_Some;
    firstorder (eauto; congruence).
Qed.

(** A percentage taken from an already derived gap and one of the gap's
    own operands has the operands of the gap. *)
Lemma follows_pct_of_gap (a b : option (option number))
    (f g : number -> number -> number) :
  follows (ifPresent2 (Some (ifPresent2 a b f)) a g) [a; b].
Proof.
  unfold follows, present, absent.
  rewrite !Forall_cons, Forall_nil, !Exists_cons, Exists_nil.
  destruct a as [[x|]|], b as [[y|]|]; simpl; unfold is_Some;
    firstorder (eauto; congruence).
Qed.

(** C1. In every row that [buildRows] makes, each derived metric is a
    number exactly when all the table entries it is computed from are
    present, and it is null (not zero, NaN or an infinity, which are
    numbers) as soon as one of them is undefined or null. *)
Theorem derived_metric_absent_iff_operand_absent (T : Data.Tables) (y : Z) :
  let r := buildRow T y in
  let local := Data.localPrice T !! y in
  let global := Data.globalPrice T !! y in
  let mifcoLocal := Data.mifcoLocalPrice T !! y in
  let revenue := Data.revenueMvr T !! y in
  let netProfit := Data.netProfitMvr T !! y in
  let subsidy := Data.subsidyMvr T !! y in
  let purchT := Data.purchasesTonnes T !! y in
  let exportT := Data.exportsTonnes T !! y in
  let catchT := Data.totalCatchTonnes T !! y in
  let mifcoPurchT := Data.mifcoPurchasesTonnes T !! y in
  follows (Row.priceGap r) [local; global] /\
  follows (Row.priceGapPct r) [local; global] /\
  follows (Row.priceGapMifco r) [mifcoLocal; global] /\
  follows (Row.priceGapMifcoPct r) [mifcoLocal; global] /\
  follows (Row.cashToBoatsMvrM r) [local; purchT] /\
  follows (Row.revenueMvrMillions r) [revenue] /\
  follows (Row.netProfitMvrMillions r) [netProfit] /\
  follows (Row.subsidyMvrMillions r) [subsidy] /\
  follows (Row.purchasesKt r) [purchT] /\
  follows (Row.exportsKt r) [exportT] /\
  follows (Row.totalCatchKt r) [catchT] /\
  follows (Row.mifcoPurchasesKt r) [mifcoPurchT] /\
  follows (Row.mifcoShareOfCatchPct r) [mifcoPurchT; catchT].
Proof.
  cbv zeta. unfold buildRow; cbn [Row.priceGap Row.priceGapPct
    Row.priceGapMifco Row.priceGapMifcoPct Row.cashToBoatsMvrM
    Row.revenueMvrMillions Row.netProfitMvrMillions Row.subsidyMvrMillions
    Row.purchasesKt Row.exportsKt Row.totalCatchKt Row.mifcoPurchasesKt
    Row.mifcoShareOfCatchPct].
  repeat split;
    first [ apply follows_ifPresent
          | apply follows_pct_of_gap
          | apply follows_ifPresent2 ].
Qed.

(** ** Year-over-year fields and absent operands *)

Lemma yoy_null_curr (prev : option number) : yoy None prev = None.
Proof. reflexivity. Qed.

Lemma yoy_null_prev (curr : option number) : yoy curr None = None.
Proof. destruct curr; reflexivity. Qed.

Lemma previous_spec (m : Metric) (rows : list Row.t) (idx : nat) :
  prevField (if (0 <? idx)%nat then rows !! (idx - 1)%nat else None)
            (current m)
  = previous m rows idx.
Proof.
  destruct idx as [|i]; simpl; [reflexivity|].
  now rewrite Nat.sub_0_r.
Qed.

Lemma yoyOf_addYoY (m : Metric) (rows : list Row.t) (idx : nat) (r : Row.t) :
  yoyOf m (addYoY rows idx r) = yoy (current m r) (previous m rows idx).
Proof.
  rewrite <- previous_spec. destruct m; reflexivity.
Qed.

Lemma lookup_rowsWithYoY (rows : list Row.t) (idx : nat) :
  rowsWithYoY rows !! idx = addYoY rows idx <$> rows !! idx.
Proof. unfold rowsWithYoY. apply list_lookup_imap. Qed.

Lemma rowsWithYoY_inv (rows : list Row.t) (idx : nat) (out : RowYoY) :
  rowsWithYoY rows !! idx = Some out ->
  exists r, rows !! idx = Some r /\ out = addYoY rows idx r.
Proof.
  rewrite lookup_rowsWithYoY.
  destruct (rows !! idx) as [r|]; simpl; intros E; [|discriminate].
  exists r. split; [reflexivity|congruence].
Qed.

(** C2. When the current or the previous value handed to [yoy] is null
    the result is null; so in the rows of [useRowsWithYoY] a
    year-over-year field is null whenever its metric is null in the row
    or in the row before it. *)
Theorem yoy_null_when_operand_null (curr prev : option number)
    (H : curr = None \/ prev = None) :
  yoy curr prev = None /\
  forall (m : Metric) (rows : list Row.t) (idx : nat) (out : RowYoY),
    rowsWithYoY rows !! idx = Some out ->
    current m (row out) = curr ->
    previous m rows idx = prev ->
    yoyOf m out = None.
Proof.
  assert (E : yoy curr prev = None).
  { destruct H as [-> | ->]; [apply yoy_null_curr | apply yoy_null_prev]. }
  split; [exact E|].
  intros m rows idx out Hout Hc Hp.
  apply rowsWithYoY_inv in Hout as (r & _ & ->).
  rewrite yoyOf_addYoY. simpl in Hc. now rewrite Hc, Hp.
Qed.

(** Subsidy 2021 and 2022 are both null, and so is the subsidy change of
    2022. *)
Lemma yoy_null_when_operand_null_witness :
  (@None number = None \/ @None number = None) /\
  (yoySubsidy <$> useRowsWithYoY !! 1%nat) = Some None.
Proof.
  split; [left; reflexivity|].
  destruct (useRowsWithYoY !! 1%nat) as [out|] eqn:E; [|vm_compute in E; discriminate].
  simpl. f_equal.
  apply (proj2 (yoy_null_when_operand_null None None (or_introl eq_refl))
           MSubsidy buildRows 1%nat out E).
  - unfold useRowsWithYoY in E. apply rowsWithYoY_inv in E as (r & Hr & ->).
    vm_compute in Hr. injection Hr as <-. reflexivity.
  - reflexivity.
Defined.

(** ** Shape of the output *)

Lemma length_rowsWithYoY (rows : list Row.t) :
  length (rowsWithYoY rows) = length rows.
Proof. unfold rowsWithYoY. apply length_imap. Qed.

Lemma row_rowsWithYoY (rows : list Row.t) : row <$> rowsWithYoY rows = rows.
Proof.
  apply list_eq. intros i.
  rewrite list_lookup_fmap, lookup_rowsWithYoY.
  destruct (rows !! i); reflexivity.
Qed.

Lemma length_transform (T : Data.Tables) (ys : list Z) :
  length (transform T ys) = length ys.
Proof.
  unfold transform. rewrite length_rowsWithYoY.
  unfold buildRowsOf. apply length_map.
Qed.

Lemma lookup_transform (T : Data.Tables) (ys : list Z) (i : nat) :
  transform T ys !! i =
  (fun y => addYoY (buildRowsOf T ys) i (buildRow T y)) <$> ys !! i.
Proof.
  unfold transform. rewrite lookup_rowsWithYoY. unfold buildRowsOf.
  change (map (buildRow T) ys) with (buildRow T <$> ys).
  rewrite list_lookup_fmap. destruct (ys !! i); reflexivity.
Qed.

Lemma year_transform (T : Data.Tables) (ys : list Z) :
  (Row.year ∘ row) <$> transform T ys = yearString <$> ys.
Proof.
  unfold transform. rewrite list_fmap_compose, row_rowsWithYoY.
  unfold buildRowsOf.
  change (map (buildRow T) ys) with (buildRow T <$> ys).
  rewrite <- list_fmap_compose. reflexivity.
Qed.

(** C5. The transform returns as many rows as there are years, in the
    order of the years: the row at index [i] is the row built for the
    [i]-th year, enriched against the rows built for the same years. *)
Theorem transform_length_and_order (T : Data.Tables) (ys : list Z) :
  length (transform T ys) = length ys /\
  (forall i : nat,
     transform T ys !! i =
     (fun y => addYoY (buildRowsOf T ys) i (buildRow T y)) <$> ys !! i) /\
  (Row.year ∘ row) <$> transform T ys = yearString <$> ys.
Proof.
  split; [apply length_transform|].
  split; [apply lookup_transform | apply year_transform].
Qed.

(** ** Determinism *)

Lemma buildRow_ext (T1 T2 : Data.Tables) (ys : list Z) (y : Z) :
  agree_on ys T1 T2 -> y ∈ ys -> buildRow T1 y = buildRow T2 y.
Proof.
  intros HT Hy.
  destruct (HT y Hy) as (E1 & E2 & E3 & E4 & E5 & E6 & E7 & E8 & E9 & E10).
  unfold buildRow. now rewrite E1, E2, E3, E4, E5, E6, E7, E8, E9, E10.
Qed.

(** C6. The output of the transform is a function of its input alone,
    and only of the table entries at the listed years: two evaluations on
    equal year lists and on tables that agree at those years return the
    same sequence. *)
Theorem transform_deterministic (T1 T2 : Data.Tables) (ys1 ys2 : list Z)
    (Hys : ys1 = ys2) (HT : agree_on ys1 T1 T2) :
  transform T1 ys1 = transform T2 ys2.
Proof.
  subst ys2. unfold transform. f_equal. unfold buildRowsOf.
  apply map_ext_in. intros y Hy.
  apply (buildRow_ext T1 T2 ys1); [exact HT|].
  now apply list_elem_of_In.
Qed.

Lemma transform_deterministic_witness :
  agree_on Data.years Data.tables tablesWith2030 /\
  Data.localPrice Data.tables !! 2030 <> Data.localPrice tablesWith2030 !! 2030 /\
  transform Data.tables Data.years = transform tablesWith2030 Data.years.
Proof.
  assert (HT : agree_on Data.years Data.tables tablesWith2030).
  { intros y Hy. unfold Data.years in Hy.
    repeat (apply elem_of_cons in Hy as [-> | Hy]);
      [ .. | now apply elem_of_nil in Hy ];
      vm_compute; repeat split. }
  split; [exact HT|]. split; [vm_compute; discriminate|].
  exact (transform_deterministic Data.tables tablesWith2030
           Data.years Data.years eq_refl HT).
Defined.

(** ** The first row *)

(** C8. The row of the first year has no row before it, and all of its
    five year-over-year fields are null. *)
Theorem first_row_yoy_null (T : Data.Tables) (y : Z) (ys : list Z) :
  yoyFields <$> head (transform T (y :: ys))
  = Some [None; None; None; None; None].
Proof.
  unfold transform, rowsWithYoY, buildRowsOf. simpl. unfold yoyFields. simpl.
  now rewrite !yoy_null_prev.
Qed.

(** ** Raw fields *)

Lemma passedThrough_orNull (raw : option (option number)) :
  passedThrough raw (orNull raw).
Proof. destruct raw as [[x|]|]; reflexivity. Qed.

(** C9. The six raw fields of a row are the table entries of its year:
    the prices with undefined turned into null, revenue, net profit and
    subsidy copied as they are; and the enrichment with year-over-year
    fields keeps the row it enriches. *)
Theorem raw_fields_pass_through (T : Data.Tables) (ys : list Z) (y : Z) :
  let r := buildRow T y in
  passedThrough (Data.localPrice T !! y) (Row.localPrice r) /\
  passedThrough (Data.mifcoLocalPrice T !! y) (Row.mifcoLocalPrice r) /\
  passedThrough (Data.globalPrice T !! y) (Row.globalPrice r) /\
  Row.revenueMvr r = Data.revenueMvr T !! y /\
  Row.netProfitMvr r = Data.netProfitMvr T !! y /\
  Row.subsidyMvr r = Data.subsidyMvr T !! y /\
  passedThrough (Data.revenueMvr T !! y) (orNull (Row.revenueMvr r)) /\
  passedThrough (Data.netProfitMvr T !! y) (orNull (Row.netProfitMvr r)) /\
  passedThrough (Data.subsidyMvr T !! y) (orNull (Row.subsidyMvr r)) /\
  row <$> transform T ys = buildRow T <$> ys.
Proof.
  cbv zeta. unfold buildRow at 1 2 3 4 5 6 7 8 9.
  cbn [Row.localPrice Row.mifcoLocalPrice Row.globalPrice Row.revenueMvr
       Row.netProfitMvr Row.subsidyMvr].
  repeat split; try apply passedThrough_orNull.
  unfold transform. apply row_rowsWithYoY.
Qed.

(** ** The 2023 and 2024 revenue *)

(** C4, as the code has it.  Revenue 2023 and 2024 become 2008.8 and
    1075.6 millions, and the 2024 revenue change is computed by [yoy] from
    these two rounded values, as the revenue change of every row is; its
    value is -46.5. *)
Theorem revenue_yoy_2024 :
  Data.revenueMvr Data.tables !! 2023 = Some (Some (ofZ 2008805560)) /\
  Data.revenueMvr Data.tables !! 2024 = Some (Some (ofZ 1075554268)) /\
  (Row.year ∘ row) <$> useRowsWithYoY !! 2%nat = Some "2023"%string /\
  (Row.year ∘ row) <$> useRowsWithYoY !! 3%nat = Some "2024"%string /\
  (Row.revenueMvrMillions ∘ row) <$> useRowsWithYoY !! 2%nat
    = Some (Some (lit 20088 1)) /\
  (Row.revenueMvrMillions ∘ row) <$> useRowsWithYoY !! 3%nat
    = Some (Some (lit 10756 1)) /\
  yoyRevenue <$> useRowsWithYoY !! 3%nat
    = Some (yoy (Some (lit 10756 1)) (Some (lit 20088 1))) /\
  yoy (Some (lit 10756 1)) (Some (lit 20088 1))
    = Some (round1 (mul (div (sub (lit 10756 1) (lit 20088 1)) (lit 20088 1))
                        (ofZ 100))) /\
  yoy (Some (lit 10756 1)) (Some (lit 20088 1)) = Some (lit (-465) 1) /\
  (forall (rows : list Row.t) (idx : nat) (r : Row.t),
     yoyRevenue (addYoY rows idx r)
     = yoy (Row.revenueMvrMillions r) (previous MRevenue rows idx)).
Proof.
  repeat apply conj;
    [ vm_compute; reflexivity ..
    | intros rows idx r; apply (yoyOf_addYoY MRevenue) ].
Qed.

(** The 2024 revenue change is not -46.4. *)
Lemma revenue_yoy_2024_is_not_minus_46_4 :
  (Row.year ∘ row) <$> useRowsWithYoY !! 3%nat = Some "2024"%string /\
  yoyRevenue <$> useRowsWithYoY !! 3%nat <> Some (Some (lit (-464) 1)).
Proof. split; [reflexivity | vm_compute; discriminate]. Qed.

(** ** Binary64 operations never invent a NaN *)

Section Rounding.

Variables p_ e_ : Z.

Lemma iter_pos_invariant {A : Type} (P : A -> Prop) (f : A -> A) :
  (forall x, P x -> P (f x)) ->
  forall (n : positive) (x : A), P x -> P (SpecFloat.iter_pos f n x).
Proof.
  intros Hf. induction n as [n IH | n IH |]; intros x Hx; simpl; auto.
Qed.

Lemma shr_1_nonneg (mrs : shr_record) :
  0 <= shr_m mrs -> 0 <= shr_m (shr_1 mrs).
Proof.
  destruct mrs as [m r s]. simpl.
  destruct m as [|[q|q|]|[q|q|]]; simpl; lia.
Qed.

Lemma shr_nonneg (mrs : shr_record) (e n : Z) :
  0 <= shr_m mrs -> 0 <= shr_m (fst (shr mrs e n)).
Proof.
  intros H. destruct n as [|n|n]; simpl; trivial.
  apply (iter_pos_invariant (fun x => 0 <= shr_m x)); trivial.
  apply shr_1_nonneg.
Qed.

Lemma shr_fexp_nonneg (m e : Z) (l : location) :
  0 <= m -> 0 <= shr_m (fst (shr_fexp p_ e_ m e l)).
Proof.
  intros H. unfold shr_fexp. apply shr_nonneg.
  destruct l as [|[]]; exact H.
Qed.

Lemma round_nearest_even_nonneg (m : Z) (l : location) :
  0 <= m -> 0 <= round_nearest_even m l.
Proof.
  intros H. destruct l as [|[]]; simpl; try lia.
  destruct (Z.even m); lia.
Qed.

(** Rounding a non-negative mantissa gives a zero, a finite number or
    an infinity. *)
Lemma binary_round_aux_not_nan (s : bool) (m e : Z) (l : location) :
  0 <= m -> is_nan (binary_round_aux p_ e_ s m e l) = false.
Proof.
  intros H. unfold binary_round_aux.
  pose proof (shr_fexp_nonneg m e l H) as H1.
  destruct (shr_fexp p_ e_ m e l) as [mrs1 e1]. simpl in H1.
  pose proof (shr_fexp_nonneg _ e1 loc_Exact
                (round_nearest_even_nonneg _ (loc_of_shr_record mrs1) H1))
    as H2.
  destruct (shr_fexp p_ e_ _ e1 loc_Exact) as [mrs2 e2]. simpl in H2.
  destruct (shr_m mrs2) as [|q|q]; [reflexivity| |lia].
  destruct (e2 <=? e_ - p_); reflexivity.
Qed.

Lemma binary_normalize_not_nan (m e : Z) (s : bool) :
  is_nan (binary_normalize p_ e_ m e s) = false.
Proof.
  destruct m as [|q|q]; simpl; [reflexivity| |];
    unfold binary_round;
    destruct (shl_align _ _ _) as [mz ez];
    apply binary_round_aux_not_nan; lia.
Qed.

End Rounding.

Lemma sub_not_nan (a b : number) :
  is_finite a = true -> is_finite b = true -> is_nan (sub a b) = false.
Proof.
  destruct a as [sa|sa| |sa ma ea], b as [sb|sb| |sb mb eb];
    try discriminate; intros _ _; unfold sub; simpl.
  - destruct sa, sb; reflexivity.
  - reflexivity.
  - reflexivity.
  - apply binary_normalize_not_nan.
Qed.

Lemma div_not_nan (a b : number) :
  is_nan a = false -> is_finite b = true -> is_zero b = false ->
  is_nan (div a b) = false.
Proof.
  destruct a as [sa|sa| |sa ma ea], b as [sb|sb| |sb mb eb];
    try discriminate; intros _ _ _; unfold div; simpl; try reflexivity.
  unfold SFdiv_core_binary.
  destruct (Z.div_eucl _ (Z.pos mb)) as [q r] eqn:E.
  apply binary_round_aux_not_nan.
  assert (Hq : q = fst (Z.div_eucl
      match ea - eb - Z.min (fexp prec emax
          (Z.pos (digits2_pos ma) + ea - (Z.pos (digits2_pos mb) + eb)))
          (ea - eb) with
      | 0 => Z.pos ma
      | Z.pos _ => Z.shiftl (Z.pos ma) (ea - eb - Z.min (fexp prec emax
          (Z.pos (digits2_pos ma) + ea - (Z.pos (digits2_pos mb) + eb)))
          (ea - eb))
      | Z.neg _ => 0
      end (Z.pos mb))) by (simpl in E; rewrite E; reflexivity).
  rewrite Hq. apply Z.div_pos; [|lia].
  destruct (ea - eb - _) as [|k|k]; try lia.
  apply Z.shiftl_nonneg. lia.
Qed.

Lemma mul_100_not_nan (a : number) :
  is_nan a = false -> is_nan (mul a (ofZ 100)) = false.
Proof.
  destruct a as [sa|sa| |sa ma ea]; try discriminate; intros _;
    try reflexivity.
  change (ofZ 100) with (S754_finite false 7036874417766400 (-46)).
  unfold mul. simpl. apply binary_round_aux_not_nan. lia.
Qed.

Lemma round1_not_nan (x : number) :
  is_nan x = false -> is_nan (round1 x) = false.
Proof.
  destruct x as [s|s| |s m e]; try discriminate; intros _; try reflexivity.
  unfold round1, toFixed1. destruct (ge_1e21 m e); [reflexivity|].
  simpl. destruct (tenths m e) as [|q|q]; try reflexivity.
  unfold div. simpl. unfold SFdiv_core_binary.
  destruct (Z.div_eucl _ 10) as [q' r] eqn:E.
  apply binary_round_aux_not_nan.
  match type of E with Z.div_eucl ?a ?b = _ =>
    assert (Hq : q' = a / b) by (unfold Z.div; rewrite E; reflexivity);
    assert (Ha : 0 <= a)
  end.
  { destruct (0 - 0 - _) as [|k|k]; try lia. apply Z.shiftl_nonneg. lia. }
  rewrite Hq. apply Z.div_pos; [exact Ha | lia].
Qed.

(** ** Rounding error of the binary64 operations *)

Lemma tenths_close (m : positive) (e : Z) :
  e < 0 ->
  Z.abs (2 * (tenths m e * 2 ^ (- e) - 10 * Z.pos m)) <= 2 ^ (- e).
Proof.
  intros He. unfold tenths.
  destruct (0 <=? e) eqn:E; [apply Z.leb_le in E; lia|].
  replace (1 - e) with (Z.succ (- e)) by lia.
  rewrite Z.pow_succ_r by lia.
  assert (HD : 0 < 2 ^ (- e)) by (apply Z.pow_pos_nonneg; lia).
  set (D := 2 ^ (- e)) in *.
  pose proof (Z.div_mod (20 * Z.pos m + D) (2 * D) ltac:(lia)) as Hdm.
  pose proof (Z.mod_pos_bound (20 * Z.pos m + D) (2 * D) ltac:(lia)) as Hb.
  set (n := (20 * Z.pos m + D) / (2 * D)) in *.
  set (r := (20 * Z.pos m + D) mod (2 * D)) in *.
  lia.
Qed.

Lemma pow2_pos (e : Z) : (0 < pow2 e)%R.
Proof. apply powerRZ_lt. lra. Qed.

Lemma pow2_add (a b : Z) : pow2 (a + b) = (pow2 a * pow2 b)%R.
Proof. apply powerRZ_add. lra. Qed.

Lemma pow2_succ (e : Z) : pow2 (e + 1) = (2 * pow2 e)%R.
Proof. rewrite pow2_add. unfold pow2 at 2. simpl. lra. Qed.

Lemma pow2_IZR (n : Z) : 0 <= n -> pow2 n = IZR (2 ^ n).
Proof.
  intros H. unfold pow2. rewrite <- (Z2Nat.id n H) at 1.
  rewrite <- pow_powerRZ. rewrite <- (Z2Nat.id n H) at 2.
  generalize (Z.to_nat n). intros k. induction k.
  - reflexivity.
  - rewrite Nat2Z.inj_succ, Z.pow_succ_r by lia. rewrite mult_IZR. simpl. lra.
Qed.

Lemma pow2_le (a b : Z) : a <= b -> (pow2 a <= pow2 b)%R.
Proof.
  intros H. replace b with (a + (b - a)) by lia. rewrite pow2_add.
  rewrite (pow2_IZR (b - a)) by lia.
  assert (1 <= 2 ^ (b - a)) by (apply Z.lt_pred_le, Z.pow_pos_nonneg; lia).
  apply IZR_le in H0. pose proof (pow2_pos a). nra.
Qed.

(** Shifting the mantissa right by one bit keeps the position of [x]. *)
Lemma located_shr_1 (x : R) (mrs : shr_record) (e : Z) :
  0 <= shr_m mrs -> located x mrs e -> located x (shr_1 mrs) (e + 1).
Proof.
  destruct mrs as [m r s]. unfold located. simpl. intros Hm.
  rewrite pow2_succ. pose proof (pow2_pos e) as He.
  destruct m as [|[q|q|]|q]; try lia; simpl;
    try rewrite (Pos2Z.inj_xI q); try rewrite (Pos2Z.inj_xO q);
    try rewrite plus_IZR; try rewrite mult_IZR;
    destruct r, s; simpl; intros H; try nra.
Qed.

Lemma located_iter (x : R) (n : positive) :
  forall (mrs : shr_record) (e : Z),
    0 <= shr_m mrs -> located x mrs e ->
    0 <= shr_m (SpecFloat.iter_pos shr_1 n mrs) /\
    located x (SpecFloat.iter_pos shr_1 n mrs) (e + Z.pos n).
Proof.
  induction n as [n IH | n IH |]; intros mrs e Hm Hx; simpl.
  - destruct (IH (shr_1 mrs) (e + 1) (shr_1_nonneg _ Hm)
                (located_shr_1 _ _ _ Hm Hx)) as [H1 H2].
    destruct (IH _ _ H1 H2) as [H3 H4]. split; [exact H3|].
    replace (e + Z.pos n~1) with (e + 1 + Z.pos n + Z.pos n) by lia. exact H4.
  - destruct (IH mrs e Hm Hx) as [H1 H2].
    destruct (IH _ _ H1 H2) as [H3 H4]. split; [exact H3|].
    replace (e + Z.pos n~0) with (e + Z.pos n + Z.pos n) by lia. exact H4.
  - split; [now apply shr_1_nonneg | now apply located_shr_1].
Qed.

Lemma located_shr (x : R) (mrs : shr_record) (e n : Z) :
  0 <= shr_m mrs -> located x mrs e ->
  0 <= shr_m (fst (shr mrs e n)) /\
  located x (fst (shr mrs e n)) (snd (shr mrs e n)) /\
  snd (shr mrs e n) = Z.max e (e + n).
Proof.
  intros Hm Hx. destruct n as [|n|n]; simpl.
  - repeat split; trivial. lia.
  - destruct (located_iter x n mrs e Hm Hx) as [H1 H2].
    repeat split; trivial. lia.
  - repeat split; trivial. lia.
Qed.

Lemma located_shr_fexp (p_ e_ : Z) (x : R) (m e : Z) (l : location) :
  0 <= m -> located x (shr_record_of_loc m l) e ->
  let res := shr_fexp p_ e_ m e l in
  0 <= shr_m (fst res) /\
  located x (fst res) (snd res) /\
  snd res = Z.max e (fexp p_ e_ (Zdigits2 m + e)).
Proof.
  intros Hm Hx. unfold shr_fexp.
  assert (Hm' : 0 <= shr_m (shr_record_of_loc m l))
    by (destruct l as [|[]]; exact Hm).
  destruct (located_shr x _ e (fexp p_ e_ (Zdigits2 m + e) - e) Hm' Hx)
    as (H1 & H2 & H3).
  cbv zeta. repeat split; trivial. rewrite H3. lia.
Qed.

Lemma located_bounds (x : R) (mrs : shr_record) (e : Z) :
  located x mrs e ->
  (IZR (shr_m mrs) * pow2 e <= x < (IZR (shr_m mrs) + 1) * pow2 e)%R.
Proof.
  destruct mrs as [m r s]. unfold located. simpl.
  pose proof (pow2_pos e). destruct r, s; intros Hx; nra.
Qed.

(** Rounding to nearest moves [x] by at most half a step. *)
Lemma round_nearest_even_close (x : R) (mrs : shr_record) (e : Z) :
  located x mrs e ->
  let m' := round_nearest_even (shr_m mrs) (loc_of_shr_record mrs) in
  shr_m mrs <= m' <= shr_m mrs + 1 /\
  (- (pow2 e / 2) <= IZR m' * pow2 e - x <= pow2 e / 2)%R.
Proof.
  destruct mrs as [m r s]. unfold located. simpl.
  pose proof (pow2_pos e).
  destruct r, s; simpl; intros Hx.
  - split; [lia|]. rewrite plus_IZR. nra.
  - destruct (Z.even m); (split; [lia|]); try rewrite plus_IZR; nra.
  - split; [lia|]. nra.
  - split; [lia|]. nra.
Qed.

Lemma digits2_pos_size (m : positive) : digits2_pos m = Pos.size m.
Proof. induction m; simpl; congruence. Qed.

Lemma digits2_lower (m : positive) : 2 ^ (Z.pos (digits2_pos m) - 1) <= Z.pos m.
Proof.
  rewrite digits2_pos_size.
  pose proof (Pos.size_le m) as H.
  apply Pos2Z.pos_le_pos in H. rewrite Pos2Z.inj_pow in H.
  assert (E : 2 ^ Z.pos (Pos.size m) = 2 * 2 ^ (Z.pos (Pos.size m) - 1)).
  { replace (Z.pos (Pos.size m)) with (Z.succ (Z.pos (Pos.size m) - 1)) at 1
      by lia.
    apply Z.pow_succ_r. lia. }
  rewrite E in H. lia.
Qed.

Lemma Zdigits2_le (m e k : Z) :
  0 < m -> (IZR m * pow2 e < pow2 k)%R -> Zdigits2 m + e <= k.
Proof.
  intros Hm Hx. destruct m as [|q|q]; try lia. simpl.
  destruct (Z_le_gt_dec (Z.pos (digits2_pos q) + e) k) as [|Hgt]; trivial.
  exfalso.
  pose proof (digits2_lower q) as Hd. apply IZR_le in Hd.
  rewrite <- pow2_IZR in Hd by lia.
  assert (Hk : (pow2 k <= pow2 (Z.pos (digits2_pos q) - 1 + e))%R)
    by (apply pow2_le; lia).
  rewrite pow2_add in Hk. pose proof (pow2_pos e). nra.
Qed.

Lemma fexp64_eq (e : Z) : fexp 53 1024 e = fexp64 e.
Proof. reflexivity. Qed.

Lemma shr_m_of_loc (m : Z) (l : location) : shr_m (shr_record_of_loc m l) = m.
Proof. destruct l as [|[]]; reflexivity. Qed.

(** The rounding of [SpecFloat] on a value below [2^k]: the result is a
    zero or a finite number, with the sign asked for, and within one and a
    half steps of the value, the step being that of magnitude [2^(k+1)]. *)
Lemma binary_round_aux_close (s : bool) (m e : Z) (l : location) (x : R) (k : Z) :
  0 <= m -> located x (shr_record_of_loc m l) e -> (x < pow2 k)%R ->
  -1074 <= k -> k <= 1023 -> e <= fexp64 (k + 1) ->
  let z := binary_round_aux 53 1024 s m e l in
  is_finite z = true /\ Fsign z = s /\ Fexp_le z (fexp64 (k + 1)) /\
  (- (3 / 2 * pow2 (fexp64 (k + 1))) <= Fabs z - x
   <= 3 / 2 * pow2 (fexp64 (k + 1)))%R.
Proof.
  intros Hm Hx Hk Hk1 Hk2 He. cbv zeta. unfold binary_round_aux.
  set (F := fexp64 (k + 1)) in *.
  assert (HF : F <= k + 1 /\ F <= 971) by (unfold F, fexp64; lia).
  destruct (located_shr_fexp 53 1024 x m e l Hm Hx) as (H1 & L1 & E1).
  destruct (shr_fexp 53 1024 m e l) as [mrs1 e1]. simpl in H1, L1, E1.
  rewrite fexp64_eq in E1.
  assert (B1 : e1 <= F).
  { subst e1. apply Z.max_lub; [exact He|].
    destruct (Z.eq_dec m 0) as [-> | Hm0].
    - simpl. unfold F, fexp64 in *. lia.
    - pose proof (located_bounds _ _ _ Hx) as Hb. rewrite shr_m_of_loc in Hb.
      assert (Zdigits2 m + e <= k) by (apply Zdigits2_le; [lia | lra]).
      unfold F, fexp64. lia. }
  destruct (round_nearest_even_close x mrs1 e1 L1) as (Hm' & Hr).
  set (m' := round_nearest_even (shr_m mrs1) (loc_of_shr_record mrs1)) in *.
  assert (Hm'0 : 0 <= m') by lia.
  assert (Hx' : located (IZR m' * pow2 e1) (shr_record_of_loc m' loc_Exact) e1)
    by reflexivity.
  destruct (located_shr_fexp 53 1024 _ m' e1 loc_Exact Hm'0 Hx') as (H2 & L2 & E2).
  destruct (shr_fexp 53 1024 m' e1 loc_Exact) as [mrs2 e2]. simpl in H2, L2, E2.
  rewrite fexp64_eq in E2.
  pose proof (pow2_pos e1) as P1. pose proof (pow2_pos e2) as P2.
  pose proof (pow2_pos k) as Pk.
  assert (Q1 : (pow2 e1 <= pow2 (k + 1))%R) by (apply pow2_le; lia).
  rewrite pow2_succ in Q1.
  assert (B2 : e2 <= F).
  { subst e2. apply Z.max_lub; [exact B1|].
    destruct (Z.eq_dec m' 0) as [E0 | Hm0].
    - rewrite E0. simpl. unfold F, fexp64 in *. lia.
    - assert (Zdigits2 m' + e1 <= k + 1).
      { apply Zdigits2_le; [lia|]. rewrite pow2_succ. lra. }
      unfold F, fexp64. lia. }
  assert (B12 : e1 <= e2) by lia.
  apply pow2_le in B12. pose proof (pow2_le _ _ B2) as Q2.
  pose proof (located_bounds _ _ _ L2) as Hb2.
  destruct (shr_m mrs2) as [|q|q] eqn:Eq; [| |lia].
  - simpl. repeat split; trivial; simpl in Hb2; lra.
  - replace (e2 <=? 1024 - 53) with true by (symmetry; apply Z.leb_le; lia).
    simpl. repeat split; trivial; lra.
Qed.

Lemma pow2_sub (a b : Z) : pow2 (a - b) = (pow2 a / pow2 b)%R.
Proof.
  pose proof (pow2_pos b) as Hb.
  replace a with ((a - b) + b) at 2 by lia. rewrite pow2_add.
  field. lra.
Qed.

Lemma pow2_lt_inv (a b : Z) : (pow2 a < pow2 b)%R -> a < b.
Proof.
  intros H. destruct (Z_lt_ge_dec a b) as [|Hge]; trivial.
  exfalso. assert (b <= a) by lia. apply pow2_le in H0. lra.
Qed.

Lemma digits2_upper (m : positive) : Z.pos m < 2 ^ Z.pos (digits2_pos m).
Proof.
  rewrite digits2_pos_size. pose proof (Pos.size_gt m) as H.
  apply Pos2Z.pos_lt_pos in H. now rewrite Pos2Z.inj_pow in H.
Qed.

Lemma Fabs_digits (m : positive) (e : Z) :
  (pow2 (Z.pos (digits2_pos m) - 1 + e) <= IZR (Z.pos m) * pow2 e
   < pow2 (Z.pos (digits2_pos m) + e))%R.
Proof.
  pose proof (digits2_lower m) as Hl. pose proof (digits2_upper m) as Hu.
  apply IZR_le in Hl. apply IZR_lt in Hu.
  rewrite <- pow2_IZR in Hl, Hu by lia.
  rewrite !pow2_add. pose proof (pow2_pos e). nra.
Qed.

(** The location that division computes from a remainder. *)
Lemma located_new_location (q r nb e : Z) :
  0 <= r < nb ->
  located ((IZR q + IZR r / IZR nb) * pow2 e)
          (shr_record_of_loc q (new_location nb r)) e.
Proof.
  intros Hr. pose proof (pow2_pos e) as He.
  assert (Hnb : (0 < IZR nb)%R) by (apply IZR_lt; lia).
  assert (Hr0 : (0 <= IZR r)%R) by (apply IZR_le; lia).
  assert (Hq : forall t : R, (t / IZR nb * IZR nb = t)%R) by (intros; field; lra).
  pose proof (Hq (IZR r)) as Hq'.
  set (f := (IZR r / IZR nb)%R) in *.
  unfold new_location.
  assert (Hloc : forall c : comparison,
    match c with
    | Eq => 2 * r = nb | Lt => 0 < r /\ 2 * r < nb | Gt => 2 * r > nb
    end ->
    located ((IZR q + f) * pow2 e) (shr_record_of_loc q (loc_Inexact c)) e).
  { intros c Hc. unfold located. destruct c; simpl.
    - apply (f_equal IZR) in Hc. rewrite mult_IZR in Hc.
      assert (f = 1 / 2)%R by nra. rewrite H. reflexivity.
    - destruct Hc as [Hc1 Hc2]. apply IZR_lt in Hc1, Hc2.
      rewrite mult_IZR in Hc2. split; nra.
    - assert (Hc2 : nb < 2 * r) by lia. apply IZR_lt in Hc2.
      rewrite mult_IZR in Hc2. destruct Hr as [_ Hr]. apply IZR_lt in Hr.
      split; nra. }
  destruct (Z.even nb) eqn:Ev.
  - unfold new_location_even. destruct (r =? 0) eqn:E0.
    + apply Z.eqb_eq in E0. subst r. unfold located, f. simpl.
      unfold Rdiv. rewrite Rmult_0_l, Rplus_0_r. reflexivity.
    + apply Z.eqb_neq in E0. apply Hloc.
      destruct (Z.compare_spec (2 * r) nb); lia.
  - unfold new_location_odd. destruct (r =? 0) eqn:E0.
    + apply Z.eqb_eq in E0. subst r. unfold located, f. simpl.
      unfold Rdiv. rewrite Rmult_0_l, Rplus_0_r. reflexivity.
    + apply Z.eqb_neq in E0.
      assert (Hodd : Z.odd nb = true) by (rewrite <- Z.negb_even, Ev; reflexivity).
      apply Z.odd_spec in Hodd. destruct Hodd as [j Hj].
      destruct (Z.compare_spec (2 * r + 1) nb); apply Hloc; lia.
Qed.

(** Division of two finite numbers against the real quotient. *)
Lemma div_close (sa sb : bool) (ma mb : positive) (ea eb k : Z) :
  let x := (IZR (Z.pos ma) * pow2 ea / (IZR (Z.pos mb) * pow2 eb))%R in
  (x < pow2 k)%R -> -1074 <= k -> k <= 1023 ->
  let z := SFdiv 53 1024 (S754_finite sa ma ea) (S754_finite sb mb eb) in
  is_finite z = true /\ Fsign z = xorb sa sb /\ Fexp_le z (fexp64 (k + 1)) /\
  (- (3 / 2 * pow2 (fexp64 (k + 1))) <= Fabs z - x
   <= 3 / 2 * pow2 (fexp64 (k + 1)))%R.
Proof.
  intros x Hx Hk1 Hk2. cbv zeta. unfold SFdiv, SFdiv_core_binary.
  rewrite fexp64_eq.
  set (d := Zdigits2 (Z.pos ma) + ea - (Zdigits2 (Z.pos mb) + eb)).
  set (e' := Z.min (fexp64 d) (ea - eb)).
  set (s := ea - eb - e').
  assert (Hs : 0 <= s) by (unfold s, e'; lia).
  set (m' := match s with
             | 0 => Z.pos ma
             | Z.pos _ => Z.shiftl (Z.pos ma) s
             | Z.neg _ => 0
             end).
  assert (Hm' : m' = Z.pos ma * 2 ^ s).
  { unfold m'. destruct s as [|p|p] eqn:Es; try lia.
    apply Z.shiftl_mul_pow2. lia. }
  pose proof (Z_div_mod m' (Z.pos mb) ltac:(lia)) as Hdm.
  destruct (Z.div_eucl m' (Z.pos mb)) as [q r]. destruct Hdm as [Hdm Hr].
  pose proof (pow2_pos ea) as Pa. pose proof (pow2_pos eb) as Pb.
  pose proof (pow2_pos e') as Pe.
  assert (Hmb : (0 < IZR (Z.pos mb))%R) by (apply IZR_lt; lia).
  assert (Hma : (0 < IZR (Z.pos ma))%R) by (apply IZR_lt; lia).
  assert (Ex : x = ((IZR q + IZR r / IZR (Z.pos mb)) * pow2 e')%R).
  { unfold x. apply (f_equal IZR) in Hdm, Hm'.
    rewrite plus_IZR, mult_IZR in Hdm. rewrite mult_IZR in Hm'.
    rewrite <- pow2_IZR in Hm' by lia.
    assert (Hp : pow2 ea = (pow2 s * pow2 e' * pow2 eb)%R).
    { rewrite <- !pow2_add. f_equal. unfold s. lia. }
    rewrite Hp. rewrite Hm' in Hdm. field_simplify; try lra.
    replace (IZR (Z.pos ma) * pow2 s * pow2 e')%R
      with ((IZR (Z.pos mb) * IZR q + IZR r) * pow2 e')%R by (rewrite <- Hdm; ring).
    field. lra. }
  assert (Hq : 0 <= q) by nia.
  assert (Hd : d <= k).
  { pose proof (Fabs_digits ma ea) as [Ha _].
    pose proof (Fabs_digits mb eb) as [_ Hb].
    assert (Hlow : (pow2 (d - 1) <= x)%R).
    { unfold d. simpl.
      replace (Z.pos (digits2_pos ma) + ea - (Z.pos (digits2_pos mb) + eb) - 1)
        with ((Z.pos (digits2_pos ma) - 1 + ea) - (Z.pos (digits2_pos mb) + eb))
        by lia.
      rewrite pow2_sub. unfold x.
      pose proof (pow2_pos (Z.pos (digits2_pos mb) + eb)).
      pose proof (pow2_pos (Z.pos (digits2_pos ma) - 1 + ea)).
      apply Rle_trans with (IZR (Z.pos ma) * pow2 ea / pow2 (Z.pos (digits2_pos mb) + eb))%R.
      - unfold Rdiv. apply Rmult_le_compat_r; [|lra].
        left. apply Rinv_0_lt_compat. lra.
      - unfold Rdiv. apply Rmult_le_compat_l; [nra|].
        apply Rinv_le_contravar; nra. }
    assert (d - 1 < k) by (apply pow2_lt_inv; lra). lia. }
  apply binary_round_aux_close; trivial.
  - rewrite Ex. apply located_new_location. lia.
  - unfold e', fexp64 in *. lia.
Qed.

Lemma Fabs_nonneg (z : number) : (0 <= Fabs z)%R.
Proof.
  destruct z as [s|s| |s m e]; simpl; try lra.
  pose proof (pow2_pos e). assert (0 < IZR (Z.pos m))%R by (apply IZR_lt; lia).
  nra.
Qed.

Lemma F2R_cases (z : number) :
  (F2R z = Fabs z /\ Fsign z = false) \/ (F2R z = (- Fabs z)%R /\ Fsign z = true).
Proof. unfold F2R. destruct (Fsign z); [right | left]; split; reflexivity. Qed.

(** Multiplication of two finite numbers against the real product. *)
Lemma mul_close (sa sb : bool) (ma mb : positive) (ea eb k : Z) :
  let x := (IZR (Z.pos ma) * pow2 ea * (IZR (Z.pos mb) * pow2 eb))%R in
  (x < pow2 k)%R -> -1074 <= k -> k <= 1023 -> ea + eb <= fexp64 (k + 1) ->
  let z := SFmul 53 1024 (S754_finite sa ma ea) (S754_finite sb mb eb) in
  is_finite z = true /\ Fsign z = xorb sa sb /\ Fexp_le z (fexp64 (k + 1)) /\
  (- (3 / 2 * pow2 (fexp64 (k + 1))) <= Fabs z - x
   <= 3 / 2 * pow2 (fexp64 (k + 1)))%R.
Proof.
  intros x Hx Hk1 Hk2 He. cbv zeta. unfold SFmul.
  apply binary_round_aux_close; trivial; [lia|].
  unfold located. simpl. rewrite Pos2Z.inj_mul, mult_IZR, pow2_add.
  unfold x. ring.
Qed.

Lemma pow2_neg_val (n : Z) : 0 <= n -> pow2 (- n) = (/ IZR (2 ^ n))%R.
Proof.
  intros H. replace (- n) with (0 - n) by lia.
  rewrite pow2_sub, (pow2_IZR n H). unfold pow2. simpl. lra.
Qed.

Lemma million_value : ofZ 1000000 = S754_finite false 8589934592000000 (-33).
Proof. reflexivity. Qed.

Lemma million_real : (IZR (Z.pos 8589934592000000) * pow2 (-33) = 1000000)%R.
Proof.
  change (-33) with (Z.opp 33).
  rewrite (pow2_neg_val 33) by lia. change (2 ^ 33) with 8589934592. lra.
Qed.

Lemma tenths_nonneg (m : positive) (e : Z) : 0 <= tenths m e.
Proof.
  unfold tenths. destruct (0 <=? e) eqn:E.
  - apply Z.leb_le in E. assert (0 < 2 ^ e) by (apply Z.pow_pos_nonneg; lia). nia.
  - apply Z.leb_gt in E. apply Z.div_pos.
    + assert (0 < 2 ^ (- e)) by (apply Z.pow_pos_nonneg; lia). lia.
    + apply Z.pow_pos_nonneg; lia.
Qed.

(** The decimal of [toFixed(1)] is within 0.05 of the number. *)
Lemma tenths_real (m : positive) (e : Z) :
  (- (1 / 20) <= IZR (tenths m e) / 10 - IZR (Z.pos m) * pow2 e <= 1 / 20)%R.
Proof.
  destruct (Z_le_gt_dec 0 e) as [He | He].
  - unfold tenths. replace (0 <=? e) with true by (symmetry; apply Z.leb_le; lia).
    rewrite !mult_IZR, <- pow2_IZR by lia. lra.
  - pose proof (tenths_close m e ltac:(lia)) as Hc.
    set (t := tenths m e) in *.
    assert (HD : 0 < 2 ^ (- e)) by (apply Z.pow_pos_nonneg; lia).
    assert (Hp : pow2 e = (/ IZR (2 ^ (- e)))%R).
    { rewrite <- (pow2_neg_val (- e)) by lia. f_equal. lia. }
    rewrite Hp. clear Hp.
    set (D := 2 ^ (- e)) in *.
    apply Z.abs_le in Hc. destruct Hc as [Hc1 Hc2].
    apply IZR_le in Hc1, Hc2. apply IZR_lt in HD.
    rewrite opp_IZR in Hc1.
    rewrite !mult_IZR, !minus_IZR, !mult_IZR in Hc1, Hc2.
    assert (Hinv : (IZR D * / IZR D = 1)%R) by (field; lra).
    assert (Hpos : (0 < / IZR D)%R) by (apply Rinv_0_lt_compat; lra).
    set (i := (/ IZR D)%R) in *.
    assert (E1 : (IZR t / 10 - IZR (Z.pos m) * i
                  = (IZR t * IZR D - 10 * IZR (Z.pos m)) * i / 10)%R).
    { transitivity (IZR t * (IZR D * i) / 10 - IZR (Z.pos m) * i)%R.
      - rewrite Hinv. field.
      - field. }
    rewrite E1. set (w := (IZR t * IZR D - 10 * IZR (Z.pos m))%R) in *.
    assert (W1 : (- IZR D * i <= 2 * w * i)%R)
      by (apply Rmult_le_compat_r; lra).
    assert (W2 : (2 * w * i <= IZR D * i)%R)
      by (apply Rmult_le_compat_r; lra).
    lra.
Qed.

Lemma pow2_m21 : pow2 (-21) = (/ 2097152)%R.
Proof. change (-21) with (Z.opp 21). now rewrite pow2_neg_val by lia. Qed.

Lemma pow2_m20 : pow2 (-20) = (/ 1048576)%R.
Proof. change (-20) with (Z.opp 20). now rewrite pow2_neg_val by lia. Qed.

Lemma pow2_0 : pow2 0 = 1%R.
Proof. reflexivity. Qed.

Lemma pow2_31 : pow2 31 = 2147483648%R.
Proof. now rewrite pow2_IZR by lia. Qed.

Lemma pow2_32 : pow2 32 = 4294967296%R.
Proof. now rewrite pow2_IZR by lia. Qed.

Lemma pow2_50 : pow2 50 = 1125899906842624%R.
Proof. now rewrite pow2_IZR by lia. Qed.

Lemma pow2_52 : pow2 52 = 4503599627370496%R.
Proof. now rewrite pow2_IZR by lia. Qed.

Lemma F2R_finite (s : bool) (m : positive) (e : Z) :
  F2R (S754_finite s m e)
  = if s then (- (IZR (Z.pos m) * pow2 e))%R else (IZR (Z.pos m) * pow2 e)%R.
Proof. reflexivity. Qed.

Lemma F2R_zero (s : bool) : F2R (S754_zero s) = 0%R.
Proof. unfold F2R. destruct s; simpl; lra. Qed.

Lemma F2R_of_sign (z : number) (s : bool) :
  Fsign z = s -> F2R z = if s then (- Fabs z)%R else Fabs z.
Proof. intros <-. reflexivity. Qed.

(** [v / 1e6] in binary64 against the real quotient. *)
Lemma div_million_close (v : number) :
  is_finite v = true -> (Fabs v <= pow2 50)%R ->
  let x := div v (ofZ 1000000) in
  is_finite x = true /\ Fexp_le x (-21) /\
  (- (3 / 2 * pow2 (-21)) <= F2R x - F2R v / 1000000
   <= 3 / 2 * pow2 (-21))%R.
Proof.
  intros Hv Hb. cbv zeta. rewrite million_value.
  pose proof (pow2_pos (-21)) as P.
  destruct v as [s|s| |s m e]; try discriminate.
  - unfold div. simpl. rewrite !F2R_zero. repeat split; trivial; lra.
  - pose proof (div_close s false m 8589934592000000 e (-33) 31) as H.
    cbv zeta in H. rewrite million_real in H.
    change (fexp64 (31 + 1)) with (-21) in H.
    unfold Fabs in Hb. rewrite pow2_50 in Hb. rewrite pow2_31 in H.
    destruct (H ltac:(lra) ltac:(lia) ltac:(lia)) as (F & S & E & B).
    change (div (S754_finite s m e) (S754_finite false 8589934592000000 (-33)))
      with (SFdiv 53 1024 (S754_finite s m e)
              (S754_finite false 8589934592000000 (-33))).
    split; [exact F|]. split; [exact E|].
    rewrite (F2R_of_sign _ _ S), F2R_finite, xorb_false_r.
    destruct s; lra.
Qed.

(** [Number(x.toFixed(1))] against [x]. *)
Lemma round1_close (x : number) :
  is_finite x = true -> Fexp_le x (-21) -> (Fabs x <= pow2 31)%R ->
  let r := round1 x in
  is_finite r = true /\ Fexp_le r (-20) /\
  (- (1 / 20 + 3 / 2 * pow2 (-20)) <= F2R r - F2R x
   <= 1 / 20 + 3 / 2 * pow2 (-20))%R.
Proof.
  intros Hx He Hb. cbv zeta.
  pose proof (pow2_pos (-20)) as P.
  destruct x as [s|s| |s m e]; try discriminate.
  - unfold round1. simpl. rewrite !F2R_zero. repeat split; trivial; lra.
  - unfold round1, toFixed1. destruct (ge_1e21 m e).
    + unfold Number, Fexp_le in *. repeat split; trivial; try lia; lra.
    + pose proof (tenths_real m e) as Ht. pose proof (tenths_nonneg m e) as Hn.
      unfold Fabs in Hb. rewrite pow2_31 in Hb.
      destruct (tenths m e) as [|p|p]; [| |lia].
      * simpl. rewrite F2R_zero, F2R_finite.
        repeat split; trivial; destruct s; lra.
      * unfold Number.
        pose proof (div_close s false p 10 0 0 32) as H.
        cbv zeta in H. rewrite pow2_0, pow2_32 in H.
        change (fexp64 (32 + 1)) with (-20) in H.
        destruct (H ltac:(lra) ltac:(lia) ltac:(lia)) as (F & S & E & B).
        change (div (S754_finite s p 0) (S754_finite false 10 0))
          with (SFdiv 53 1024 (S754_finite s p 0) (S754_finite false 10 0)).
        split; [exact F|]. split; [exact E|].
        rewrite (F2R_of_sign _ _ S), F2R_finite, xorb_false_r.
        destruct s; lra.
Qed.

(** [r * 1e6] in binary64 against the real product. *)
Lemma mul_million_close (r : number) :
  is_finite r = true -> Fexp_le r (-20) -> (Fabs r <= pow2 31 + 1)%R ->
  let y := mul r (ofZ 1000000) in
  is_finite y = true /\
  (- (3 / 2) <= F2R y - F2R r * 1000000 <= 3 / 2)%R.
Proof.
  intros Hr He Hb. cbv zeta. rewrite million_value.
  destruct r as [s|s| |s m e]; try discriminate.
  - unfold mul. simpl. rewrite !F2R_zero. repeat split; trivial; lra.
  - pose proof (mul_close s false m 8589934592000000 e (-33) 52) as H.
    cbv zeta in H. rewrite million_real in H.
    change (fexp64 (52 + 1)) with 0 in H. rewrite pow2_0, pow2_52 in H.
    unfold Fabs in Hb. unfold Fexp_le in He. rewrite pow2_31 in Hb.
    destruct (H ltac:(lra) ltac:(lia) ltac:(lia) ltac:(lia)) as (F & S & E & B).
    change (mul (S754_finite s m e) (S754_finite false 8589934592000000 (-33)))
      with (SFmul 53 1024 (S754_finite s m e)
              (S754_finite false 8589934592000000 (-33))).
    split; [exact F|].
    rewrite (F2R_of_sign _ _ S), F2R_finite, xorb_false_r.
    destruct s; lra.
Qed.

Lemma shl_align_real (mx : positive) (ex ex' : Z) :
  (IZR (Z.pos (fst (shl_align mx ex ex'))) * pow2 (snd (shl_align mx ex ex'))
   = IZR (Z.pos mx) * pow2 ex)%R /\
  snd (shl_align mx ex ex') = Z.min ex ex'.
Proof.
  unfold shl_align. destruct (ex' - ex) as [|d|d] eqn:E; simpl.
  - split; [reflexivity | lia].
  - split; [reflexivity | lia].
  - split; [|lia].
    change (Pos.iter xO mx d) with (shift_pos d mx).
    rewrite shift_pos_correct, mult_IZR.
    change (Z.pow_pos 2 d) with (2 ^ Z.pos d).
    rewrite <- pow2_IZR by lia.
    replace ex with (Z.pos d + ex') by lia. rewrite pow2_add. ring.
Qed.

Lemma binary_round_close (s : bool) (m : positive) (e k : Z) :
  (IZR (Z.pos m) * pow2 e < pow2 k)%R -> -1074 <= k -> k <= 1023 ->
  let z := binary_round 53 1024 s m e in
  is_finite z = true /\ Fsign z = s /\
  (- (3 / 2 * pow2 (fexp64 (k + 1))) <= Fabs z - IZR (Z.pos m) * pow2 e
   <= 3 / 2 * pow2 (fexp64 (k + 1)))%R.
Proof.
  intros Hx Hk1 Hk2. cbv zeta. unfold binary_round. rewrite fexp64_eq.
  destruct (shl_align_real m e (fexp64 (Z.pos (digits2_pos m) + e))) as [Hv He].
  destruct (shl_align m e (fexp64 (Z.pos (digits2_pos m) + e))) as [mz ez].
  simpl in Hv, He.
  assert (Hd : Z.pos (digits2_pos m) + e <= k)
    by (apply (Zdigits2_le (Z.pos m)); [lia | exact Hx]).
  destruct (binary_round_aux_close s (Z.pos mz) ez loc_Exact
              (IZR (Z.pos m) * pow2 e)%R k) as (F & S & _ & B); trivial.
  - lia.
  - unfold located. simpl. symmetry. exact Hv.
  - unfold fexp64 in *. lia.
  - repeat split; trivial; lra.
Qed.

Lemma cond_Zopp_real (s : bool) (m : positive) (e ez : Z) :
  ez <= e ->
  (IZR (cond_Zopp s (Z.pos (fst (shl_align m e ez)))) * pow2 ez
   = F2R (S754_finite s m e))%R.
Proof.
  intros H. destruct (shl_align_real m e ez) as [Hv He].
  replace (Z.min e ez) with ez in He by lia. rewrite He in Hv.
  unfold F2R, Fsign, Fabs, cond_Zopp. destruct s.
  - rewrite opp_IZR. lra.
  - lra.
Qed.

(** Subtraction of two finite numbers against the real difference. *)
Lemma sub_close (c p : number) (k : Z) :
  is_finite c = true -> is_finite p = true ->
  (Fabs c + Fabs p < pow2 k)%R -> -1074 <= k -> k <= 1023 ->
  is_finite (sub c p) = true /\
  (- (3 / 2 * pow2 (fexp64 (k + 1))) <= F2R (sub c p) - (F2R c - F2R p)
   <= 3 / 2 * pow2 (fexp64 (k + 1)))%R.
Proof.
  intros Hc Hp Hb Hk1 Hk2.
  pose proof (pow2_pos (fexp64 (k + 1))) as P.
  destruct c as [sc|sc| |sc mc ec], p as [sp|sp| |sp mp ep]; try discriminate.
  - unfold sub. simpl.
    destruct sc, sp; simpl; rewrite ?F2R_zero; split; trivial; lra.
  - unfold sub. simpl. rewrite F2R_zero, !F2R_finite.
    split; trivial. destruct sp; simpl; lra.
  - unfold sub. simpl. rewrite F2R_zero. split; trivial. lra.
  - unfold sub, SFsub, prec, emax.
    set (ez := Z.min ec ep).
    pose proof (cond_Zopp_real sc mc ec ez ltac:(lia)) as Vc.
    pose proof (cond_Zopp_real sp mp ep ez ltac:(lia)) as Vp.
    set (A := cond_Zopp sc (Z.pos (fst (shl_align mc ec ez)))) in *.
    set (B := cond_Zopp sp (Z.pos (fst (shl_align mp ep ez)))) in *.
    assert (Vz : (IZR (A - B) * pow2 ez
                  = F2R (S754_finite sc mc ec) - F2R (S754_finite sp mp ep))%R)
      by (rewrite minus_IZR; lra).
    pose proof (Fabs_nonneg (S754_finite sc mc ec)) as Nc.
    pose proof (Fabs_nonneg (S754_finite sp mp ep)) as Np.
    assert (Hz : (- pow2 k < IZR (A - B) * pow2 ez < pow2 k)%R).
    { rewrite Vz.
      destruct (F2R_cases (S754_finite sc mc ec)) as [[-> _] | [-> _]],
               (F2R_cases (S754_finite sp mp ep)) as [[-> _] | [-> _]]; lra. }
    rewrite <- Vz.
    unfold binary_normalize. destruct (A - B) as [|q|q] eqn:Ez.
    + rewrite F2R_zero. split; trivial. lra.
    + destruct (binary_round_close false q ez k) as (F & S & Bd);
        trivial; [lra|].
      split; [exact F|]. rewrite (F2R_of_sign _ _ S). lra.
    + change (IZR (Z.neg q)) with (IZR (- Z.pos q)) in *.
      rewrite opp_IZR in *.
      destruct (binary_round_close true q ez k) as (F & S & Bd);
        trivial; [lra|].
      split; [exact F|]. rewrite (F2R_of_sign _ _ S). lra.
Qed.

Lemma Rdiv_lt_bound (a b c : R) : (0 < b -> a < c * b -> a / b < c)%R.
Proof.
  intros Hb H. unfold Rdiv.
  assert (Hi : (0 < / b)%R) by (apply Rinv_0_lt_compat; exact Hb).
  assert (E : (b * / b = 1)%R) by (field; lra).
  assert (H' : (a * / b < c * b * / b)%R) by (apply Rmult_lt_compat_r; trivial).
  replace (c * b * / b)%R with (c * (b * / b))%R in H' by ring.
  rewrite E in H'. lra.
Qed.

Lemma div_fin_close (d p : number) (k : Z) :
  is_finite d = true -> is_finite p = true -> (0 < Fabs p)%R ->
  (Fabs d / Fabs p < pow2 k)%R -> -1074 <= k -> k <= 1023 ->
  is_finite (div d p) = true /\ Fexp_le (div d p) (fexp64 (k + 1)) /\
  (Fabs (div d p) <= Fabs d / Fabs p + 3 / 2 * pow2 (fexp64 (k + 1)))%R.
Proof.
  intros Hd Hp Hp0 Hb Hk1 Hk2.
  pose proof (pow2_pos (fexp64 (k + 1))) as P.
  destruct p as [sp|sp| |sp mp ep]; try discriminate.
  { simpl in Hp0. lra. }
  destruct d as [sd|sd| |sd md ed]; try discriminate.
  - unfold div. simpl. unfold Rdiv. rewrite Rmult_0_l.
    repeat split; trivial. lra.
  - destruct (div_close sd sp md mp ed ep k Hb Hk1 Hk2) as (F & _ & E & B).
    unfold div, prec, emax. repeat split; trivial.
    unfold Fabs at 2 3. lra.
Qed.

Lemma hundred_value : ofZ 100 = S754_finite false 7036874417766400 (-46).
Proof. reflexivity. Qed.

Lemma hundred_real : (IZR (Z.pos 7036874417766400) * pow2 (-46) = 100)%R.
Proof.
  change (-46) with (Z.opp 46).
  rewrite (pow2_neg_val 46) by lia. change (2 ^ 46) with 70368744177664. lra.
Qed.

Lemma mul_100_finite (q : number) (k E : Z) :
  is_finite q = true -> Fexp_le q E -> E - 46 <= fexp64 (k + 1) ->
  (Fabs q * 100 < pow2 k)%R -> -1074 <= k -> k <= 1023 ->
  is_finite (mul q (ofZ 100)) = true.
Proof.
  intros Hq He HE Hb Hk1 Hk2. rewrite hundred_value.
  destruct q as [s|s| |s m e]; try discriminate; [reflexivity|].
  pose proof (mul_close s false m 7036874417766400 e (-46) k) as H.
  cbv zeta in H. rewrite hundred_real in H. unfold Fabs in Hb.
  unfold Fexp_le in He.
  destruct (H Hb Hk1 Hk2 ltac:(lia)) as (F & _).
  exact F.
Qed.

Lemma ge_1e21_false (m : positive) (e : Z) :
  ge_1e21 m e = false -> (IZR (Z.pos m) * pow2 e < 1000000000000000000000)%R.
Proof.
  unfold ge_1e21. change (10 ^ 21) with 1000000000000000000000.
  destruct (Z_le_gt_dec 0 e) as [He | He].
  - replace (0 <=? e) with true by (symmetry; apply Z.leb_le; lia).
    intros H. apply Z.leb_gt in H. apply IZR_lt in H.
    rewrite mult_IZR, <- pow2_IZR in H by lia. exact H.
  - replace (0 <=? e) with false by (symmetry; apply Z.leb_gt; lia).
    intros H. apply Z.leb_gt in H. apply IZR_lt in H.
    rewrite mult_IZR in H.
    assert (HD : 0 < 2 ^ (- e)) by (apply Z.pow_pos_nonneg; lia).
    apply IZR_lt in HD.
    assert (Hp : pow2 e = (/ IZR (2 ^ (- e)))%R).
    { rewrite <- (pow2_neg_val (- e)) by lia. f_equal. lia. }
    rewrite Hp. apply Rdiv_lt_bound; trivial.
Qed.

(** Rounding to one decimal keeps a finite number finite. *)
Lemma round1_finite (x : number) :
  is_finite x = true -> is_finite (round1 x) = true.
Proof.
  destruct x as [s|s| |s m e]; try discriminate; intros _; [reflexivity|].
  unfold round1, toFixed1. destruct (ge_1e21 m e) eqn:G; [reflexivity|].
  pose proof (ge_1e21_false m e G) as Hm.
  pose proof (tenths_real m e) as Ht.
  unfold Number. destruct (tenths m e) as [|n|n]; try reflexivity.
  pose proof (div_close s false n 10 0 0 70) as H. cbv zeta in H.
  rewrite pow2_0, (pow2_IZR 70) in H by lia.
  change (2 ^ 70) with 1180591620717411303424 in H.
  destruct (H ltac:(lra) ltac:(lia) ltac:(lia)) as (F & _).
  exact F.
Qed.

(** ** The zero guard of [yoy] *)

Lemma strict_eq_zero (x : number) : strict_eq x zero = is_zero x.
Proof. destruct x as [s|[]| |[] m e]; reflexivity. Qed.

Lemma yoy_zero_prev (curr : option number) (s : bool) :
  yoy curr (Some (S754_zero s)) = None.
Proof. destruct curr; reflexivity. Qed.

Lemma yoy_nonzero_prev (c p : number) :
  is_zero p = false ->
  yoy (Some c) (Some p) = Some (round1 (mul (div (sub c p) p) (ofZ 100))).
Proof. intros H. unfold yoy. now rewrite strict_eq_zero, H. Qed.

(** No overflow in [yoy] on operands between 2^-500 and 2^500. *)
Lemma yoy_finite_on_moderate (c p : number) :
  is_finite c = true -> is_finite p = true ->
  (Fabs c <= pow2 500)%R -> (pow2 (-500) <= Fabs p <= pow2 500)%R ->
  exists r, yoy (Some c) (Some p) = Some r /\ is_finite r = true.
Proof.
  intros Hc Hp Bc [Bp1 Bp2].
  pose proof (pow2_pos (-500)) as P0.
  assert (Hz : is_zero p = false).
  { destruct p; try reflexivity. simpl in Bp1. lra. }
  rewrite (yoy_nonzero_prev c p Hz). eexists. split; [reflexivity|].
  apply round1_finite.
  (* the difference *)
  pose proof (pow2_pos 500) as P500.
  pose proof (pow2_le 450 500 ltac:(lia)) as L450.
  pose proof (pow2_pos 450) as P450.
  assert (E502 : pow2 502 = (4 * pow2 500)%R).
  { replace 502 with (500 + 1 + 1) by lia. rewrite !pow2_succ. ring. }
  destruct (sub_close c p 502 Hc Hp) as (Fd & Bd); [lra | lia | lia |].
  change (fexp64 (502 + 1)) with 450 in Bd.
  set (d := sub c p) in *.
  pose proof (Fabs_nonneg c) as Nc. pose proof (Fabs_nonneg p) as Np.
  pose proof (Fabs_nonneg d) as Nd.
  assert (Hd : (Fabs d < pow2 502)%R).
  { destruct (F2R_cases d) as [[Ed _] | [Ed _]],
             (F2R_cases c) as [[Ec _] | [Ec _]],
             (F2R_cases p) as [[Ep _] | [Ep _]];
      rewrite Ed, Ec, Ep in Bd; lra. }
  (* the quotient *)
  assert (E1002 : pow2 1002 = (pow2 502 * pow2 500)%R)
    by (rewrite <- pow2_add; reflexivity).
  assert (E0 : (pow2 500 * pow2 (-500) = 1)%R)
    by (rewrite <- pow2_add; reflexivity).
  assert (Hq : (Fabs d / Fabs p < pow2 1002)%R).
  { apply Rdiv_lt_bound; [lra|]. rewrite E1002.
    apply Rlt_le_trans with (pow2 502 * 1)%R; [lra|].
    rewrite <- E0, Rmult_assoc. apply Rmult_le_compat_l; [lra|].
    apply Rmult_le_compat_l; lra. }
  destruct (div_fin_close d p 1002 Fd Hp ltac:(lra) Hq ltac:(lia) ltac:(lia))
    as (Fq & Eq & Bq).
  change (fexp64 (1002 + 1)) with 950 in Eq, Bq.
  set (q := div d p) in *.
  pose proof (pow2_pos 1002) as P1002.
  pose proof (pow2_le 950 1001 ltac:(lia)) as L950.
  pose proof (pow2_pos 950) as P950.
  assert (E1002' : pow2 1002 = (2 * pow2 1001)%R)
    by (replace 1002 with (1001 + 1) by lia; apply pow2_succ).
  assert (E1010 : pow2 1010 = (256 * pow2 1002)%R).
  { replace 1010 with (1002 + 8) by lia. rewrite pow2_add.
    rewrite (pow2_IZR 8) by lia. change (2 ^ 8) with 256. ring. }
  apply (mul_100_finite q 1010 950); trivial; try lia.
  - unfold fexp64. lia.
  - lra.
Qed.

(** C3, as the code has it.  A previous value that is a zero, of either
    sign, makes [yoy] return null whatever the current value is, so [yoy]
    never divides by zero.  On finite operands with a non-zero previous
    value it returns a number that is never NaN, and that is finite when
    the operands are of moderate size: current and previous value at most
    2^500 in magnitude, previous value at least 2^-500.  (Beyond that the
    quotient or its product with 100 can overflow to an infinity.) *)
Theorem yoy_zero_guard (curr prev : number)
    (Hc : is_finite curr = true) (Hp : is_finite prev = true) :
  (forall (c : option number) (s : bool), yoy c (Some (S754_zero s)) = None) /\
  (is_zero prev = true -> yoy (Some curr) (Some prev) = None) /\
  (is_zero prev = false ->
   exists r, yoy (Some curr) (Some prev) = Some r /\ is_nan r = false) /\
  ((Fabs curr <= pow2 500)%R -> (pow2 (-500) <= Fabs prev <= pow2 500)%R ->
   exists r, yoy (Some curr) (Some prev) = Some r /\ is_finite r = true).
Proof.
  split; [exact yoy_zero_prev|]. split; [|split].
  - destruct prev; try discriminate. intros _. reflexivity.
  - intros Hz. eexists. split; [apply yoy_nonzero_prev; exact Hz|].
    apply round1_not_nan, mul_100_not_nan, div_not_nan; trivial.
    now apply sub_not_nan.
  - intros Bc Bp. now apply yoy_finite_on_moderate.
Qed.

(** Local price 23.0 in 2023 and 14.0 in 2024. *)
Lemma yoy_zero_guard_witness :
  is_finite (lit 140 1) = true /\ is_finite (lit 230 1) = true /\
  yoy (Some (lit 140 1)) (Some (lit 230 1)) = Some (lit (-391) 1) /\
  exists r, yoy (Some (lit 140 1)) (Some (lit 230 1)) = Some r /\
            is_finite r = true.
Proof.
  split; [reflexivity|]. split; [reflexivity|]. split; [reflexivity|].
  apply (yoy_zero_guard (lit 140 1) (lit 230 1) eq_refl eq_refl).
  - change (lit 140 1) with (S754_finite false 7881299347898368 (-49)).
    unfold Fabs. change (-49) with (Z.opp 49).
    rewrite pow2_neg_val by lia. change (2 ^ 49) with 562949953421312.
    pose proof (pow2_le 4 500 ltac:(lia)) as H.
    rewrite (pow2_IZR 4) in H by lia. change (2 ^ 4) with 16 in H. lra.
  - change (lit 230 1) with (S754_finite false 6473924464345088 (-48)).
    unfold Fabs. change (-48) with (Z.opp 48).
    rewrite pow2_neg_val by lia. change (2 ^ 48) with 281474976710656.
    pose proof (pow2_le (-500) 0 ltac:(lia)) as H1.
    pose proof (pow2_le 5 500 ltac:(lia)) as H2.
    rewrite pow2_0 in H1. rewrite (pow2_IZR 5) in H2 by lia.
    change (2 ^ 5) with 32 in H2. lra.
Defined.

(** [yoy(1e308, 1)] is [Infinity]: the operands are finite, the previous
    value is not zero, and the product with 100 overflows. *)
Lemma yoy_overflows_to_infinity :
  is_finite (ofZ (10 ^ 308)) = true /\ is_finite (ofZ 1) = true /\
  is_zero (ofZ 1) = false /\
  yoy (Some (ofZ (10 ^ 308))) (Some (ofZ 1)) = Some (S754_infinity false) /\
  is_infinite (S754_infinity false) = true.
Proof. vm_compute. repeat split. Qed.

(** ** Scaling to millions and back *)

Lemma toFixed1_close (x : number) (neg : bool) (n : Z) :
  toFixed1 x = NumFixed neg n ->
  (Rabs (IZR n / 10 - Fabs x) <= 1 / 20)%R.
Proof.
  destruct x as [s|s| |s m e]; simpl; try discriminate.
  - intros H. injection H as _ <-. apply Rabs_le. lra.
  - destruct (ge_1e21 m e); [discriminate|]. intros H. injection H as _ <-.
    apply Rabs_le. apply tenths_real.
Qed.

Lemma round_trip_bound (v : number) :
  is_finite v = true -> (Fabs v <= pow2 50)%R ->
  let y := mul (toMillions v) (ofZ 1000000) in
  is_finite y = true /\ (Rabs (F2R y - F2R v) <= 50004)%R.
Proof.
  intros Hv Hb. cbv zeta. unfold toMillions.
  destruct (div_million_close v Hv Hb) as (F1 & E1 & B1).
  set (x := div v (ofZ 1000000)) in *.
  pose proof (Fabs_nonneg v) as Nv. pose proof (Fabs_nonneg x) as Nx.
  rewrite pow2_50 in Hb. rewrite pow2_m21 in B1.
  assert (Hx : (Fabs x <= pow2 31)%R).
  { rewrite pow2_31.
    destruct (F2R_cases x) as [[Ex _] | [Ex _]], (F2R_cases v) as [[Ev _] | [Ev _]];
      rewrite Ex, Ev in B1; lra. }
  destruct (round1_close x F1 E1 Hx) as (F2 & E2 & B2).
  set (r := round1 x) in *.
  pose proof (Fabs_nonneg r) as Nr.
  rewrite pow2_31 in Hx. rewrite pow2_m20 in B2.
  assert (Hr : (Fabs r <= pow2 31 + 1)%R).
  { rewrite pow2_31.
    destruct (F2R_cases x) as [[Ex _] | [Ex _]], (F2R_cases r) as [[Er _] | [Er _]];
      rewrite Ex, Er in B2; lra. }
  destruct (mul_million_close r F2 E2 Hr) as (F3 & B3).
  split; [exact F3|]. apply Rabs_le. lra.
Qed.

(** C7, as the code has it.  For a finite monetary value [v] of magnitude
    at most 2^50, scaling to millions as [buildRows] does and scaling back,
    all in binary64, gives a finite number within 50,004 of [v]: the
    decimal that [toFixed(1)] writes is within 0.05 of the quotient, and the
    three roundings to binary64 add less than 4.  For every present
    revenue, net profit and subsidy of the hard-coded tables the round
    trip is within 50,000. *)
Theorem millions_round_trip (v : number)
    (Hv : is_finite v = true) (Hb : (Fabs v <= pow2 50)%R) :
  (let y := mul (toMillions v) (ofZ 1000000) in
   is_finite y = true /\ (Rabs (F2R y - F2R v) <= 50004)%R) /\
  (forall (neg : bool) (n : Z),
     toFixed1 (div v (ofZ 1000000)) = NumFixed neg n ->
     (Rabs (IZR n / 10 - Fabs (div v (ofZ 1000000))) <= 1 / 20)%R) /\
  length monetaryValues = 9%nat /\
  forallb (fun w => leb (roundTripError w) (ofZ 50000)) monetaryValues = true.
Proof.
  split; [exact (round_trip_bound v Hv Hb)|].
  split; [intros neg n; apply toFixed1_close|].
  split; vm_compute; reflexivity.
Qed.

(** Revenue 2023. *)
Lemma millions_round_trip_witness :
  let v := ofZ 2008805560 in
  let y := mul (toMillions v) (ofZ 1000000) in
  is_finite v = true /\ (Fabs v <= pow2 50)%R /\
  toMillions v = lit 20088 1 /\
  is_finite y = true /\ (Rabs (F2R y - F2R v) <= 50004)%R.
Proof.
  cbv zeta.
  assert (Hv : is_finite (ofZ 2008805560) = true) by reflexivity.
  assert (Hb : (Fabs (ofZ 2008805560) <= pow2 50)%R).
  { change (ofZ 2008805560) with (S754_finite false 8425541195530240 (-22)).
    unfold Fabs. change (-22) with (Z.opp 22).
    rewrite pow2_neg_val, pow2_50 by lia. change (2 ^ 22) with 4194304. lra. }
  split; [exact Hv|]. split; [exact Hb|]. split; [reflexivity|].
  exact (proj1 (millions_round_trip (ofZ 2008805560) Hv Hb)).
Defined.

(** At [v = 8250000] the round trip evaluated in binary64 is off by more
    than 50,000: 8.25 is a tie, [toFixed(1)] writes 8.3, and
    [8.3 * 1e6] is [8300000.000000001]. *)
Lemma millions_round_trip_exceeds_50000 :
  toMillions (ofZ 8250000) = lit 83 1 /\
  leb (roundTripError (ofZ 8250000)) (ofZ 50000) = false /\
  leb (ofZ 50000) (roundTripError (ofZ 8250000)) = true.
Proof. vm_compute. repeat split. Qed.

(** ** The headline *)

Lemma latest_of_five (data : list RowYoY) :
  length data = 5%nat -> Dashboard.latest data = data !! 3%nat.
Proof. intros H. unfold Dashboard.latest. rewrite H. reflexivity. Qed.

Lemma prev_of_five (data : list RowYoY) :
  length data = 5%nat -> Dashboard.prev data = data !! 2%nat.
Proof. intros H. unfold Dashboard.prev. rewrite H. reflexivity. Qed.

Lemma headline_of_five (data : list RowYoY) :
  length data = 5%nat ->
  Dashboard.headline data =
  let l := data !! 3%nat in
  let p := data !! 2%nat in
  let change f :=
    match Dashboard.field l f, Dashboard.field p f with
    | Some a, Some b => Some (round1 (mul (div (sub a b) b) (ofZ 100)))
    | _, _ => None
    end in
  {| Dashboard.headlineYear := (Row.year ∘ row) <$> l;
     Dashboard.latestLocalPrice := Dashboard.field l Row.localPrice;
     Dashboard.latestGlobalPrice := Dashboard.field l Row.globalPrice;
     Dashboard.latestRevenue := Dashboard.field l Row.revenueMvrMillions;
     Dashboard.latestSubsidy := Dashboard.field l Row.subsidyMvrMillions;
     Dashboard.kpiPriceCollapse :=
       yoy (Dashboard.field l Row.localPrice)
           (Dashboard.field p Row.localPrice);
     Dashboard.kpiRevenueDrop := change Row.revenueMvrMillions;
     Dashboard.kpiSubsidyYoY := change Row.subsidyMvrMillions;
     Dashboard.kpiPurchasesDrop := change Row.purchasesKt;
     Dashboard.kpiExportsDrop := change Row.exportsKt |}.
Proof.
  intros H.
  unfold Dashboard.headline, Dashboard.priceCollapse, Dashboard.revenueDrop,
    Dashboard.subsidyYoY, Dashboard.purchasesDrop, Dashboard.exportsDrop,
    Dashboard.change.
  rewrite (latest_of_five data H), (prev_of_five data H). reflexivity.
Qed.

(** C10. On five rows the headline reads index 3 and index 2, both in
    bounds, and nothing else: the year and the four latest values are
    fields of the row at index 3, the price change is [yoy] and the four
    other changes are the percentage change between the fields of the row
    at index 3 and of the row at index 2; so two sequences of five rows
    that have the same rows there have the same headline, whatever their
    last row is.  For five years of which the fourth is 2024 and the third
    2023, as the hard-coded ones are, these two rows are those of 2024 and
    2023, whatever the tables hold. *)
Theorem headline_from_2024_and_2023 (T : Data.Tables) (ys : list Z)
    (data data' : list RowYoY)
    (H : length data = 5%nat) (H' : length data' = 5%nat)
    (H3 : data !! 3%nat = data' !! 3%nat)
    (H2 : data !! 2%nat = data' !! 2%nat)
    (Hys : length ys = 5%nat)
    (Y3 : ys !! 3%nat = Some 2024) (Y2 : ys !! 2%nat = Some 2023) :
  Dashboard.latest data = data !! 3%nat /\
  Dashboard.prev data = data !! 2%nat /\
  is_Some (data !! 3%nat) /\
  is_Some (data !! 2%nat) /\
  Dashboard.headline data
  = {| Dashboard.headlineYear := (Row.year ∘ row) <$> data !! 3%nat;
       Dashboard.latestLocalPrice :=
         Dashboard.field (data !! 3%nat) Row.localPrice;
       Dashboard.latestGlobalPrice :=
         Dashboard.field (data !! 3%nat) Row.globalPrice;
       Dashboard.latestRevenue :=
         Dashboard.field (data !! 3%nat) Row.revenueMvrMillions;
       Dashboard.latestSubsidy :=
         Dashboard.field (data !! 3%nat) Row.subsidyMvrMillions;
       Dashboard.kpiPriceCollapse :=
         yoy (Dashboard.field (data !! 3%nat) Row.localPrice)
             (Dashboard.field (data !! 2%nat) Row.localPrice);
       Dashboard.kpiRevenueDrop :=
         pctChange (Dashboard.field (data !! 3%nat) Row.revenueMvrMillions)
                   (Dashboard.field (data !! 2%nat) Row.revenueMvrMillions);
       Dashboard.kpiSubsidyYoY :=
         pctChange (Dashboard.field (data !! 3%nat) Row.subsidyMvrMillions)
                   (Dashboard.field (data !! 2%nat) Row.subsidyMvrMillions);
       Dashboard.kpiPurchasesDrop :=
         pctChange (Dashboard.field (data !! 3%nat) Row.purchasesKt)
                   (Dashboard.field (data !! 2%nat) Row.purchasesKt);
       Dashboard.kpiExportsDrop :=
         pctChange (Dashboard.field (data !! 3%nat) Row.exportsKt)
                   (Dashboard.field (data !! 2%nat) Row.exportsKt) |} /\
  Dashboard.headline data = Dashboard.headline data' /\
  length (transform T ys) = 5%nat /\
  Dashboard.headlineYear (Dashboard.headline (transform T ys))
    = Some "2024"%string /\
  (Row.year ∘ row) <$> Dashboard.prev (transform T ys)
    = Some "2023"%string /\
  length (transform T Data.years) = 5%nat /\
  (Row.year ∘ row) <$> Dashboard.latest (transform T Data.years)
    = Some "2024"%string /\
  (Row.year ∘ row) <$> Dashboard.prev (transform T Data.years)
    = Some "2023"%string.
Proof.
  assert (HT : length (transform T Data.years) = 5%nat)
    by (rewrite length_transform; reflexivity).
  assert (HY : length (transform T ys) = 5%nat)
    by (rewrite length_transform; exact Hys).
  repeat apply conj.
  - now apply latest_of_five.
  - now apply prev_of_five.
  - apply lookup_lt_is_Some. lia.
  - apply lookup_lt_is_Some. lia.
  - rewrite (headline_of_five data H). reflexivity.
  - rewrite (headline_of_five data H), (headline_of_five data' H').
    now rewrite H3, H2.
  - exact HY.
  - change (Dashboard.headlineYear (Dashboard.headline (transform T ys)))
      with ((Row.year ∘ row) <$> Dashboard.latest (transform T ys)).
    rewrite (latest_of_five _ HY), <- list_lookup_fmap, year_transform.
    rewrite list_lookup_fmap, Y3. reflexivity.
  - rewrite (prev_of_five _ HY), <- list_lookup_fmap, year_transform.
    rewrite list_lookup_fmap, Y2. reflexivity.
  - exact HT.
  - rewrite (latest_of_five _ HT), <- list_lookup_fmap, year_transform.
    reflexivity.
  - rewrite (prev_of_five _ HT), <- list_lookup_fmap, year_transform.
    reflexivity.
Qed.

(** The dashboard's own rows, and the same rows with the 2025 row
    replaced: same headline, that of 2024 against 2023, with the values of
    the 2024 row and the changes from the 2023 row. *)
Lemma headline_from_2024_and_2023_witness :
  let other := addYoY [] 0 (buildRow Data.tables 1999) in
  let data' := <[4%nat := other]> useRowsWithYoY in
  length useRowsWithYoY = 5%nat /\
  (Row.year ∘ row) <$> data' !! 4%nat = Some "1999"%string /\
  Dashboard.headline useRowsWithYoY = Dashboard.headline data' /\
  Dashboard.headlineYear (Dashboard.headline useRowsWithYoY)
    = Some "2024"%string /\
  Dashboard.headline useRowsWithYoY
  = {| Dashboard.headlineYear := Some "2024"%string;
       Dashboard.latestLocalPrice := Some (lit 140 1);
       Dashboard.latestGlobalPrice := Some (lit 231 1);
       Dashboard.latestRevenue := Some (lit 10756 1);
       Dashboard.latestSubsidy :=
         Dashboard.field (useRowsWithYoY !! 3%nat) Row.subsidyMvrMillions;
       Dashboard.kpiPriceCollapse := Some (lit (-391) 1);
       Dashboard.kpiRevenueDrop := Some (lit (-465) 1);
       Dashboard.kpiSubsidyYoY :=
         pctChange
           (Dashboard.field (useRowsWithYoY !! 3%nat) Row.subsidyMvrMillions)
           (Dashboard.field (useRowsWithYoY !! 2%nat) Row.subsidyMvrMillions);
       Dashboard.kpiPurchasesDrop :=
         pctChange
           (Dashboard.field (useRowsWithYoY !! 3%nat) Row.purchasesKt)
           (Dashboard.field (useRowsWithYoY !! 2%nat) Row.purchasesKt);
       Dashboard.kpiExportsDrop :=
         pctChange
           (Dashboard.field (useRowsWithYoY !! 3%nat) Row.exportsKt)
           (Dashboard.field (useRowsWithYoY !! 2%nat) Row.exportsKt) |}.
Proof.
  intros other data'.
  assert (H : length useRowsWithYoY = 5%nat) by reflexivity.
  assert (H' : length data' = 5%nat) by reflexivity.
  assert (H3 : useRowsWithYoY !! 3%nat = data' !! 3%nat) by reflexivity.
  assert (H2 : useRowsWithYoY !! 2%nat = data' !! 2%nat) by reflexivity.
  destruct (headline_from_2024_and_2023 Data.tables Data.years
              useRowsWithYoY data' H H' H3 H2 eq_refl eq_refl eq_refl)
    as (_ & _ & _ & _ & V & E & _ & Y & _).
  split; [exact H|]. split; [reflexivity|]. split; [exact E|].
  split; [exact Y|]. rewrite V. vm_compute. reflexivity.
Defined.

(** ** Worked values *)

(** Ties go away from zero, a negative value that rounds to zero keeps
    its sign, and from 1e21 on nothing is rounded. *)
Example round1_ties :
  round1 (lit 825 2) = lit 83 1 /\
  round1 (lit (-825) 2) = lit (-83) 1 /\
  round1 (lit 5 2) = lit 1 1 /\
  round1 (lit (-4) 2) = S754_zero true /\
  round1 (S754_zero true) = S754_zero false /\
  round1 (ofZ (10 ^ 21)) = ofZ (10 ^ 21).
Proof. vm_compute. repeat split. Qed.

(** Local price 23.0 then 14.0 gives -39.1; 50588 of 107666 tonnes is
    47.0 per cent. *)
Example local_price_and_share_2024 :
  yoyLocal <$> useRowsWithYoY !! 3%nat = Some (Some (lit (-391) 1)) /\
  (Row.mifcoShareOfCatchPct ∘ row) <$> useRowsWithYoY !! 3%nat
    = Some (Some (lit 470 1)).
Proof. vm_compute. repeat split. Qed.

(** * Further properties of the code *)

(** ** What [yoy] returns *)

(** X1. [yoy] is null in three cases only: a null current value, a null
    previous value, a previous value that is 0 or -0. *)
Theorem yoy_null_iff (curr prev : option number) :
  yoy curr prev = None <->
  curr = None \/ prev = None \/ exists p, prev = Some p /\ is_zero p = true.
Proof.
  destruct curr as [c|], prev as [p|]; simpl.
  - rewrite strict_eq_zero. destruct (is_zero p) eqn:Hz; split.
    + intros _. right. right. now exists p.
    + reflexivity.
    + discriminate.
    + intros [H | [H | (q & H & Hq)]]; try discriminate.
      injection H as <-. congruence.
  - split; [intros _; right; left; reflexivity | reflexivity].
  - split; [intros _; left; reflexivity | reflexivity].
  - split; [intros _; left; reflexivity | reflexivity].
Qed.

Lemma sub_diag (s : bool) (m : positive) (e : Z) :
  sub (S754_finite s m e) (S754_finite s m e) = S754_zero false.
Proof. unfold sub, SFsub. now rewrite Z.sub_diag. Qed.

(** X2. A finite, non-zero value that did not change has a year-over-year
    change of exactly 0. *)
Theorem yoy_unchanged (s : bool) (m : positive) (e : Z) :
  yoy (Some (S754_finite s m e)) (Some (S754_finite s m e)) = Some zero.
Proof.
  rewrite yoy_nonzero_prev by reflexivity. rewrite sub_diag.
  destruct s; reflexivity.
Qed.

(** ** Percentages without a guard *)

Lemma pct_of_zero_denominator (g : number) (s : bool) :
  is_finite (round1 (mul (div g (S754_zero s)) (ofZ 100))) = false.
Proof. destruct g as [sg|sg| |sg mg eg]; reflexivity. Qed.

(** X3. The gap percentages and the share of catch have no guard on their
    denominator: when the local price, the MIFCO price or the total catch
    of a year is present and is 0, the percentage is not null but a number
    that is not finite (an infinity or NaN). *)
Theorem ratio_with_zero_denominator (q : Ratio) (T : Data.Tables) (y : Z)
    (z n : number)
    (Hd : denominator q T !! y = Some (Some z)) (Hz : is_zero z = true)
    (Hn : numerator q T !! y = Some (Some n)) :
  exists r, ratioField q (buildRow T y) = Some r /\ is_finite r = false.
Proof.
  destruct z as [sz| | |]; try discriminate.
  destruct q; simpl in Hd, Hn; unfold buildRow; simpl;
    rewrite Hd, Hn; simpl; eexists; (split; [reflexivity|]);
    apply pct_of_zero_denominator.
Qed.

Lemma ratio_with_zero_denominator_witness :
  let T := {| Data.localPrice := {[ 2030 := Some zero ]};
              Data.globalPrice := {[ 2030 := Data.dec 241 ]};
              Data.mifcoLocalPrice := ∅; Data.revenueMvr := ∅;
              Data.netProfitMvr := ∅; Data.subsidyMvr := ∅;
              Data.purchasesTonnes := ∅; Data.mifcoPurchasesTonnes := ∅;
              Data.exportsTonnes := ∅; Data.totalCatchTonnes := ∅ |} in
  Row.priceGapPct (buildRow T 2030) = Some (S754_infinity false) /\
  exists r, Row.priceGapPct (buildRow T 2030) = Some r /\ is_finite r = false.
Proof.
  intros T. split; [vm_compute; reflexivity|].
  apply (ratio_with_zero_denominator GapPct T 2030 zero (lit 241 1));
    reflexivity.
Defined.

(** ** The headline changes and the year-over-year fields *)

Lemma change_unguarded (l p : number) :
  is_zero p = true ->
  is_finite (round1 (mul (div (sub l p) p) (ofZ 100))) = false.
Proof.
  intros Hz. destruct p as [sp| | |]; try discriminate.
  destruct l as [sl|sl| |sl ml el]; try reflexivity.
  destruct sl, sp; reflexivity.
Qed.

Lemma lookup_rowsWithYoY_S (rows : list Row.t) (i : nat) (m : Metric) :
  (rowsWithYoY rows !! S i) ≫= yoyOf m
  = match rows !! S i with
    | Some r => yoy (current m r) (prevField (rows !! i) (current m))
    | None => None
    end.
Proof.
  rewrite lookup_rowsWithYoY. destruct (rows !! S i) as [r|]; simpl; trivial.
  apply yoyOf_addYoY.
Qed.

Lemma field_rowsWithYoY (rows : list Row.t) (i : nat) (f : Row.t -> option number) :
  Dashboard.field (rowsWithYoY rows !! i) f = (rows !! i) ≫= f.
Proof. rewrite lookup_rowsWithYoY. destruct (rows !! i); reflexivity. Qed.

Lemma change_is_row_yoy (rows : list Row.t) (m : Metric) :
  length rows = 5%nat -> notZero (rows !! 2%nat ≫= current m) ->
  Dashboard.change (rowsWithYoY rows) (current m)
  = (rowsWithYoY rows !! 3%nat) ≫= yoyOf m.
Proof.
  intros H Hnz.
  assert (HL : length (rowsWithYoY rows) = 5%nat)
    by now rewrite length_rowsWithYoY.
  unfold Dashboard.change.
  rewrite (latest_of_five _ HL), (prev_of_five _ HL), !field_rowsWithYoY.
  rewrite (lookup_rowsWithYoY_S rows 2 m).
  destruct (rows !! 3%nat) as [r|]; simpl; [|reflexivity].
  destruct (rows !! 2%nat) as [r'|]; simpl in *;
    [|destruct (current m r); reflexivity].
  destruct (current m r) as [l|], (current m r') as [p|] eqn:Ep;
    try reflexivity.
  unfold yoy. rewrite strict_eq_zero, (Hnz p eq_refl). reflexivity.
Qed.

(** X4. On five rows the local-price change of the headline is the
    [yoyLocal] of the 2024 row, and the revenue and subsidy changes of the
    hero strip are its [yoyRevenue] and [yoySubsidy], provided the revenue
    and the subsidy of 2023 are not a zero. *)
Theorem headline_change_is_row_yoy (rows : list Row.t)
    (H : length rows = 5%nat)
    (Hrev : notZero (rows !! 2%nat ≫= Row.revenueMvrMillions))
    (Hsub : notZero (rows !! 2%nat ≫= Row.subsidyMvrMillions)) :
  let data := rowsWithYoY rows in
  Dashboard.priceCollapse data = (data !! 3%nat) ≫= yoyLocal /\
  Dashboard.revenueDrop data = (data !! 3%nat) ≫= yoyRevenue /\
  Dashboard.subsidyYoY data = (data !! 3%nat) ≫= yoySubsidy.
Proof.
  cbv zeta.
  assert (HL : length (rowsWithYoY rows) = 5%nat)
    by now rewrite length_rowsWithYoY.
  split; [|split].
  - unfold Dashboard.priceCollapse.
    rewrite (latest_of_five _ HL), (prev_of_five _ HL), !field_rowsWithYoY.
    change yoyLocal with (yoyOf MLocal).
    rewrite (lookup_rowsWithYoY_S rows 2 MLocal).
    destruct (rows !! 3%nat) as [r|]; simpl; [|reflexivity].
    destruct (rows !! 2%nat); reflexivity.
  - apply (change_is_row_yoy rows MRevenue H Hrev).
  - apply (change_is_row_yoy rows MSubsidy H Hsub).
Qed.

Lemma headline_change_is_row_yoy_witness :
  Dashboard.revenueDrop useRowsWithYoY = Some (lit (-465) 1) /\
  Dashboard.revenueDrop useRowsWithYoY = (useRowsWithYoY !! 3%nat) ≫= yoyRevenue.
Proof.
  split; [vm_compute; reflexivity|].
  refine (proj1 (proj2 (headline_change_is_row_yoy buildRows eq_refl _ _)));
    intros p Hp; vm_compute in Hp; injection Hp as <-; reflexivity.
Defined.

(** X5. When the 2023 value is a zero and the 2024 value is present, the row
    field is null (the guard of [yoy]) while the headline change, which has
    no guard, is a number that is not finite. *)
Theorem headline_change_on_zero (rows : list Row.t) (f : Row.t -> option number)
    (l p : number)
    (H : length rows = 5%nat)
    (Hl : rows !! 3%nat ≫= f = Some l)
    (Hp : rows !! 2%nat ≫= f = Some p) (Hz : is_zero p = true) :
  let data := rowsWithYoY rows in
  yoy (Dashboard.field (Dashboard.latest data) f)
      (Dashboard.field (Dashboard.prev data) f) = None /\
  exists r, Dashboard.change data f = Some r /\ is_finite r = false.
Proof.
  cbv zeta.
  assert (HL : length (rowsWithYoY rows) = 5%nat)
    by now rewrite length_rowsWithYoY.
  unfold Dashboard.change.
  rewrite (latest_of_five _ HL), (prev_of_five _ HL), !field_rowsWithYoY.
  rewrite Hl, Hp. split.
  - unfold yoy. now rewrite strict_eq_zero, Hz.
  - eexists. split; [reflexivity|]. now apply change_unguarded.
Qed.

Lemma headline_change_on_zero_witness :
  let data := transform tablesZeroRevenue2023 Data.years in
  (data !! 3%nat) ≫= yoyRevenue = None /\
  exists r, Dashboard.revenueDrop data = Some r /\ is_finite r = false.
Proof.
  cbv zeta. split; [vm_compute; reflexivity|].
  refine (proj2 (headline_change_on_zero
                   (buildRowsOf tablesZeroRevenue2023 Data.years)
                   Row.revenueMvrMillions _ zero eq_refl _ _ eq_refl)).
  - vm_compute. reflexivity.
  - vm_compute. reflexivity.
Defined.

(** ** Rounding to one decimal *)

Lemma binary_round_aux_opp (s : bool) (m e : Z) (l : location) :
  binary_round_aux 53 1024 (negb s) m e l
  = SFopp (binary_round_aux 53 1024 s m e l).
Proof.
  unfold binary_round_aux.
  destruct (shr_fexp 53 1024 m e l) as [mrs1 e1].
  destruct (shr_fexp 53 1024 _ e1 loc_Exact) as [mrs2 e2].
  destruct (shr_m mrs2); try reflexivity.
  destruct (e2 <=? 1024 - 53); reflexivity.
Qed.

Lemma div_opp_l (s : bool) (p q : positive) :
  div (S754_finite (negb s) p 0) (S754_finite false q 0)
  = SFopp (div (S754_finite s p 0) (S754_finite false q 0)).
Proof.
  unfold div, SFdiv.
  destruct (SFdiv_core_binary prec emax (Z.pos p) 0 (Z.pos q) 0)
    as [[mz ez] lz].
  rewrite !xorb_false_r. apply binary_round_aux_opp.
Qed.

(** X6. Rounding to one decimal is symmetric: the rounded value of [-x] is
    the opposite of the rounded value of [x], for every [x] but the two
    zeros (both of which round to +0). *)
Theorem round1_opp (x : number) (Hx : is_zero x = false) :
  round1 (SFopp x) = SFopp (round1 x).
Proof.
  destruct x as [s|s| |s m e]; try discriminate; try reflexivity.
  unfold round1. simpl. destruct (ge_1e21 m e); [reflexivity|].
  simpl. destruct (tenths m e); try reflexivity. apply div_opp_l.
Qed.

Lemma round1_opp_witness :
  round1 (SFopp (lit 1125 2)) = SFopp (round1 (lit 1125 2)) /\
  round1 (lit 1125 2) = lit 113 1.
Proof.
  split; [apply (round1_opp (lit 1125 2)); reflexivity|].
  vm_compute. reflexivity.
Defined.

Lemma ge_1e21_true (m : positive) (e : Z) :
  ge_1e21 m e = true -> (1000000000000000000000 <= IZR (Z.pos m) * pow2 e)%R.
Proof.
  unfold ge_1e21. change (10 ^ 21) with 1000000000000000000000.
  destruct (Z_le_gt_dec 0 e) as [He | He].
  - replace (0 <=? e) with true by (symmetry; apply Z.leb_le; lia).
    intros H. apply Z.leb_le in H. apply IZR_le in H.
    rewrite mult_IZR, <- pow2_IZR in H by lia. exact H.
  - replace (0 <=? e) with false by (symmetry; apply Z.leb_gt; lia).
    intros H. apply Z.leb_le in H. apply IZR_le in H.
    rewrite mult_IZR in H.
    assert (HD : 0 < 2 ^ (- e)) by (apply Z.pow_pos_nonneg; lia).
    apply IZR_lt in HD.
    assert (Hp : pow2 e = (/ IZR (2 ^ (- e)))%R).
    { rewrite <- (pow2_neg_val (- e)) by lia. f_equal. lia. }
    rewrite Hp.
    set (D := IZR (2 ^ (- e))) in *.
    assert (Hpos : (0 < / D)%R) by (apply Rinv_0_lt_compat; lra).
    assert (Hinv : (D * / D = 1)%R) by (field; lra).
    apply (Rmult_le_compat_r (/ D)) in H; [|lra].
    rewrite Rmult_assoc, Hinv in H. lra.
Qed.

Lemma ge_1e21_small (m : positive) (e : Z) :
  (IZR (Z.pos m) * pow2 e < 1000000000000000000000)%R -> ge_1e21 m e = false.
Proof.
  intros H. destruct (ge_1e21 m e) eqn:G; trivial.
  apply ge_1e21_true in G. lra.
Qed.

Lemma pow2_46 : pow2 46 = 70368744177664%R.
Proof. rewrite pow2_IZR by lia. reflexivity. Qed.

Lemma pow2_47 : pow2 47 = 140737488355328%R.
Proof. rewrite pow2_IZR by lia. reflexivity. Qed.

Lemma pow2_m5 : pow2 (-5) = (1 / 32)%R.
Proof.
  change (-5) with (Z.opp 5). rewrite pow2_neg_val by lia.
  change (2 ^ 5) with 32. lra.
Qed.

(** X7. Rounding twice is rounding once: for a finite [x] of magnitude at
    most 2^46, the rounded value is a fixed point of [round1], except that
    -0 (the rounded value of a small negative number) becomes +0. *)
Theorem round1_idempotent (x : number)
    (Hx : is_finite x = true) (Hb : (Fabs x <= pow2 46)%R) :
  round1 (round1 x) = if is_zero (round1 x) then zero else round1 x.
Proof.
  destruct x as [s0|s0| |s m e]; try discriminate; [reflexivity|].
  unfold Fabs in Hb. rewrite pow2_46 in Hb.
  assert (G : ge_1e21 m e = false) by (apply ge_1e21_small; lra).
  pose proof (tenths_real m e) as Ht. pose proof (tenths_nonneg m e) as Hn.
  unfold round1 at 2 3 4. unfold toFixed1. rewrite G. unfold Number.
  destruct (tenths m e) as [|p|p]; [reflexivity| |lia].
  pose proof (div_close s false p 10 0 0 47) as H. cbv zeta in H.
  rewrite pow2_0, pow2_47 in H. change (fexp64 (47 + 1)) with (-5) in H.
  rewrite pow2_m5 in H.
  destruct (H ltac:(lra) ltac:(lia) ltac:(lia)) as (F & S & _ & B).
  clear H.
  change (SFdiv 53 1024 (S754_finite s p 0) (S754_finite false 10 0))
    with (div (S754_finite s p 0) (S754_finite false 10 0)) in F, S, B.
  assert (P1 : (1 <= IZR (Z.pos p))%R) by (apply IZR_le; lia).
  destruct (div (S754_finite s p 0) (S754_finite false 10 0))
    as [sr|sr| |sr mr er] eqn:R; try discriminate.
  - simpl in B. lra.
  - simpl in S. rewrite xorb_false_r in S. subst sr.
    simpl is_zero. cbv iota. unfold Fabs in B.
    pose proof (tenths_real mr er) as Hr.
    assert (G' : ge_1e21 mr er = false) by (apply ge_1e21_small; lra).
    assert (E : tenths mr er = Z.pos p).
    { assert (H1 : (IZR (tenths mr er - Z.pos p) < IZR 1)%R)
        by (rewrite minus_IZR; lra).
      assert (H2 : (IZR (-1) < IZR (tenths mr er - Z.pos p))%R)
        by (rewrite minus_IZR; lra).
      apply lt_IZR in H1, H2. lia. }
    unfold round1, toFixed1. rewrite G', E. exact R.
Qed.

Lemma round1_idempotent_witness :
  round1 (round1 (lit 1125 2)) = round1 (lit 1125 2) /\
  round1 (round1 (lit (-4) 2)) = zero /\
  round1 (lit (-4) 2) = S754_zero true.
Proof.
  split.
  - apply (round1_idempotent (lit 1125 2)); [reflexivity|].
    rewrite pow2_46.
    change (Fabs (lit 1125 2))
      with (IZR (Z.pos 6333186975989760) * pow2 (-49))%R.
    change (-49) with (Z.opp 49). rewrite pow2_neg_val by lia.
    change (2 ^ 49) with 562949953421312. lra.
  - split; vm_compute; reflexivity.
Defined.

(** ** Rows found by their label *)

Lemma yearString_inj (y1 y2 : Z) : yearString y1 = yearString y2 -> y1 = y2.
Proof. unfold yearString. apply (inj pretty). Qed.

Lemma find_first {A : Type} (P : A -> bool) (l : list A) (i : nat) (a : A) :
  l !! i = Some a -> P a = true ->
  (forall j b, (j < i)%nat -> l !! j = Some b -> P b = false) ->
  List.find P l = Some a.
Proof.
  revert i. induction l as [|c l IH]; intros [|i] Hi Ha Hlt;
    try discriminate; simpl in *.
  - injection Hi as ->. now rewrite Ha.
  - rewrite (Hlt 0%nat c) by (trivial; lia).
    apply (IH i); trivial. intros j b Hj Hb. apply (Hlt (S j) b); [lia|exact Hb].
Qed.

Lemma find_absent {A : Type} (P : A -> bool) (l : list A) :
  (forall a, a ∈ l -> P a = false) -> List.find P l = None.
Proof.
  induction l as [|c l IH]; intros H; simpl; trivial.
  rewrite (H c) by apply list_elem_of_here.
  apply IH. intros a Ha. apply H. now apply list_elem_of_further.
Qed.

Lemma year_of_transform (T : Data.Tables) (ys : list Z) (i : nat) (r : RowYoY) :
  transform T ys !! i = Some r ->
  exists y, ys !! i = Some y /\ Row.year (row r) = yearString y.
Proof.
  rewrite lookup_transform. destruct (ys !! i) as [y|]; [|discriminate].
  intros H. injection H as <-. exists y. split; reflexivity.
Qed.

Lemma findYear_first_occurrence (T : Data.Tables) (ys : list Z) (y : Z) (i : nat) :
  ys !! i = Some y -> y ∉ take i ys ->
  Summary.findYear (transform T ys) (yearString y) = transform T ys !! i.
Proof.
  intros Hi Hfirst.
  assert (E : transform T ys !! i
              = Some (addYoY (buildRowsOf T ys) i (buildRow T y)))
    by (rewrite lookup_transform, Hi; reflexivity).
  rewrite E. apply (find_first _ _ i); trivial.
  - simpl. apply String.eqb_refl.
  - intros j b Hj Hb. destruct (year_of_transform _ _ _ _ Hb) as (y' & Hy' & E').
    rewrite E'. apply String.eqb_neq. intros Heq. apply yearString_inj in Heq.
    subst y'. apply Hfirst. apply list_elem_of_lookup. exists j.
    rewrite lookup_take_lt by lia. exact Hy'.
Qed.

(** X8. Looking a year up by its label in the transformed rows gives the
    row built for that year, at the position of the year's first occurrence
    in the list of years. *)
Theorem findYear_transform (T : Data.Tables) (ys : list Z) (y : Z) (i : nat)
    (Hi : ys !! i = Some y) (Hfirst : y ∉ take i ys) :
  Summary.findYear (transform T ys) (yearString y) = transform T ys !! i /\
  row <$> (transform T ys !! i) = Some (buildRow T y).
Proof.
  split; [now apply findYear_first_occurrence|].
  rewrite lookup_transform, Hi. reflexivity.
Qed.

Lemma not_in_years (y : Z) (ys : list Z) :
  forallb (fun z => negb (z =? y)) ys = true -> y ∉ ys.
Proof.
  intros H Hin. apply list_elem_of_In in Hin.
  rewrite forallb_forall in H. specialize (H y Hin).
  rewrite Z.eqb_refl in H. discriminate.
Qed.

Lemma findYear_transform_witness :
  Summary.findYear useRowsWithYoY "2024" = useRowsWithYoY !! 3%nat /\
  row <$> (useRowsWithYoY !! 3%nat) = Some (buildRow Data.tables 2024).
Proof.
  apply (findYear_transform Data.tables Data.years 2024 3);
    [reflexivity | apply not_in_years; reflexivity].
Defined.

(** X9. A year that is not in the list of years has no row: the lookup by
    its label finds nothing, and the revenue read through it is null. *)
Theorem findYear_missing (T : Data.Tables) (ys : list Z) (y : Z)
    (Hy : y ∉ ys) :
  Summary.findYear (transform T ys) (yearString y) = None /\
  Summary.rev (transform T ys) (yearString y) = None.
Proof.
  assert (E : Summary.findYear (transform T ys) (yearString y) = None).
  { apply find_absent. intros a Ha.
    apply list_elem_of_lookup in Ha as (i & Hi).
    destruct (year_of_transform _ _ _ _ Hi) as (y' & Hy' & E').
    rewrite E'. apply String.eqb_neq. intros Heq. apply yearString_inj in Heq.
    subst y'. apply Hy. apply list_elem_of_lookup. now exists i. }
  split; [exact E|]. unfold Summary.rev. rewrite E. reflexivity.
Qed.

Lemma findYear_missing_witness :
  (2024 ∉ [2021; 2022; 2023]) /\
  Summary.rev24 (transform Data.tables [2021; 2022; 2023]) = None.
Proof.
  assert (H : 2024 ∉ [2021; 2022; 2023]) by (apply not_in_years; reflexivity).
  split; [exact H|].
  exact (proj2 (findYear_missing Data.tables [2021; 2022; 2023] 2024 H)).
Defined.

(** X10. On the hard-coded years, whatever the tables hold, the rows that
    the revenue summary finds by the labels "2024" and "2023" are the rows
    the headline takes by position (second to last and third to last), and
    the revenue of 2024 is the one on the KPI card. *)
Theorem labels_and_positions_agree (T : Data.Tables) :
  let data := transform T Data.years in
  Summary.findYear data "2024" = Dashboard.latest data /\
  Summary.findYear data "2023" = Dashboard.prev data /\
  Summary.rev24 data = Dashboard.latestRevenue (Dashboard.headline data) /\
  Summary.rev23 data = Dashboard.field (Dashboard.prev data) Row.revenueMvrMillions.
Proof.
  cbv zeta.
  assert (HL : length (transform T Data.years) = 5%nat)
    by (rewrite length_transform; reflexivity).
  assert (E4 : Summary.findYear (transform T Data.years) "2024"
               = Dashboard.latest (transform T Data.years)).
  { rewrite (latest_of_five _ HL).
    apply (findYear_first_occurrence T Data.years 2024 3);
      [reflexivity | apply not_in_years; reflexivity]. }
  assert (E3 : Summary.findYear (transform T Data.years) "2023"
               = Dashboard.prev (transform T Data.years)).
  { rewrite (prev_of_five _ HL).
    apply (findYear_first_occurrence T Data.years 2023 2);
      [reflexivity | apply not_in_years; reflexivity]. }
  unfold Summary.rev24, Summary.rev23, Summary.rev. rewrite E4, E3.
  repeat apply conj; reflexivity.
Qed.

(** ** The revenue summary *)

(** X11. The figures of the revenue summary are null exactly when a
    revenue they read is null: the loss (in millions and in billions) reads
    2023 and 2024, the average growth 2021 to 2023, the average increase
    2021 and 2023. *)
Theorem summary_null_iff (data : list RowYoY) :
  (Summary.revenueLossMvrM data = None <->
     Summary.rev23 data = None \/ Summary.rev24 data = None) /\
  (Summary.revenueLossMvrBn data = None <->
     Summary.rev23 data = None \/ Summary.rev24 data = None) /\
  (Summary.avgYoYPct data = None <->
     Summary.rev21 data = None \/ Summary.rev22 data = None \/
     Summary.rev23 data = None) /\
  (Summary.avgAnnualIncreaseMvrM data = None <->
     Summary.rev21 data = None \/ Summary.rev23 data = None).
Proof.
  unfold Summary.revenueLossMvrBn, Summary.revenueLossMvrM, Summary.avgYoYPct,
    Summary.yoy21to22, Summary.yoy22to23, Summary.avgAnnualIncreaseMvrM.
  destruct (Summary.rev21 data), (Summary.rev22 data), (Summary.rev23 data),
    (Summary.rev24 data);
    (split; [|split; [|split]]);
    split; intros H; try discriminate; try reflexivity; auto;
    repeat (destruct H as [H|H]; try discriminate).
Qed.

Lemma div_zero_not_finite (x z : number) :
  is_zero z = true -> is_finite (div x z) = false.
Proof.
  intros Hz. destruct z; try discriminate. destruct x; reflexivity.
Qed.

Lemma add_not_finite_l (a b : number) :
  is_finite a = false -> is_finite (add a b) = false.
Proof.
  destruct a as [s|s| |s m e]; try discriminate; intros _;
    destruct b as [s'|s'| |s' m' e']; try reflexivity.
  destruct s, s'; reflexivity.
Qed.

Lemma add_not_finite_r (a b : number) :
  is_finite b = false -> is_finite (add a b) = false.
Proof.
  destruct b as [s|s| |s m e]; try discriminate; intros _;
    destruct a as [s'|s'| |s' m' e']; try reflexivity.
  destruct s, s'; reflexivity.
Qed.

Lemma pct_of_half_not_finite (a : number) :
  is_finite a = false ->
  is_finite (round1 (mul (div a (ofZ 2)) (ofZ 100))) = false.
Proof. destruct a as [s|s| |s m e]; try discriminate; reflexivity. Qed.

(** X12. The average growth has no guard on a zero revenue: when the revenue
    of 2021 or of 2022 is a zero and the three revenues are present, the
    figure is neither null nor finite. *)
Theorem avgYoYPct_on_zero (data : list RowYoY) (a b c : number)
    (Ha : Summary.rev21 data = Some a) (Hb : Summary.rev22 data = Some b)
    (Hc : Summary.rev23 data = Some c)
    (Hz : is_zero a = true \/ is_zero b = true) :
  exists r, Summary.avgYoYPct data = Some r /\ is_finite r = false.
Proof.
  unfold Summary.avgYoYPct, Summary.yoy21to22, Summary.yoy22to23.
  rewrite Ha, Hb, Hc. eexists. split; [reflexivity|].
  apply pct_of_half_not_finite. destruct Hz as [Hz|Hz].
  - apply add_not_finite_l. now apply div_zero_not_finite.
  - apply add_not_finite_r. now apply div_zero_not_finite.
Qed.

Lemma avgYoYPct_on_zero_witness :
  let data := transform tablesZeroRevenue2021 Data.years in
  Summary.rev21 data = Some zero /\
  exists r, Summary.avgYoYPct data = Some r /\ is_finite r = false.
Proof.
  cbv zeta. split; [vm_compute; reflexivity|].
  refine (avgYoYPct_on_zero (transform tablesZeroRevenue2021 Data.years)
            zero _ _ _ _ _ (or_introl eq_refl));
    vm_compute; reflexivity.
Defined.

(** ** Averages *)

Lemma add_not_nan (a b : number) :
  is_nan a = false -> is_finite b = true -> is_nan (add a b) = false.
Proof.
  destruct a as [sa|sa| |sa ma ea]; try discriminate; intros _;
    destruct b as [sb|sb| |sb mb eb]; try discriminate; intros _;
    try reflexivity; try (destruct sa, sb; reflexivity).
  apply binary_normalize_not_nan.
Qed.

Lemma sum_not_nan (vals : list number) (acc : number) :
  Forall (fun v => is_finite v = true) vals -> is_nan acc = false ->
  is_nan (fold_left add vals acc) = false.
Proof.
  intros H. revert acc. induction H as [|v vals Hv _ IH]; intros acc Hacc;
    simpl; trivial.
  apply IH. now apply add_not_nan.
Qed.

Lemma ofZ_count (n : positive) :
  Z.pos n < 2 ^ 32 ->
  is_finite (ofZ (Z.pos n)) = true /\ is_zero (ofZ (Z.pos n)) = false.
Proof.
  intros Hn. apply IZR_lt in Hn. rewrite <- pow2_IZR in Hn by lia.
  assert (P1 : (1 <= IZR (Z.pos n))%R) by (apply IZR_le; lia).
  pose proof (binary_round_close false n 0 32) as H. cbv zeta in H.
  rewrite pow2_0 in H. change (fexp64 (32 + 1)) with (-20) in H.
  rewrite pow2_m20 in H.
  destruct (H ltac:(lra) ltac:(lia) ltac:(lia)) as (F & _ & B).
  change (binary_round 53 1024 false n 0) with (ofZ (Z.pos n)) in F, B.
  split; [exact F|].
  destruct (ofZ (Z.pos n)); try discriminate; try reflexivity.
  simpl in B. lra.
Qed.

Lemma average_Some (vals : list number) :
  vals <> [] ->
  average vals
  = Some (round1 (div (fold_left add vals zero)
                      (ofZ (Z.of_nat (length vals))))).
Proof. destruct vals; [congruence | reflexivity]. Qed.

Lemma average_not_nan (vals : list number) (a : number) :
  Forall (fun v => is_finite v = true) vals ->
  Z.of_nat (length vals) < 2 ^ 32 ->
  average vals = Some a -> is_nan a = false.
Proof.
  intros Hfin Hlen Ha.
  assert (Hne : vals <> []) by (intros ->; discriminate).
  rewrite average_Some in Ha by exact Hne. injection Ha as <-.
  apply round1_not_nan.
  destruct (Z.of_nat (length vals)) as [|n|n] eqn:E;
    [destruct vals; [congruence | simpl in E; lia] | | lia].
  destruct (ofZ_count n Hlen) as [F Z0].
  apply div_not_nan; [|exact F|exact Z0].
  apply sum_not_nan; [exact Hfin | reflexivity].
Qed.

Lemma average_None (vals : list number) : average vals = None <-> vals = [].
Proof. destruct vals; split; intros H; try discriminate; reflexivity. Qed.

Lemma omap_nil_iff {A B : Type} (f : A -> option B) (l : list A) :
  omap f l = [] <-> forall a, a ∈ l -> f a = None.
Proof.
  induction l as [|c l IH]; simpl.
  - split; [intros _ a Ha; now apply elem_of_nil in Ha | reflexivity].
  - destruct (f c) eqn:E; split.
    + discriminate.
    + intros H. specialize (H c (list_elem_of_here _ _)). congruence.
    + intros H a Ha. apply elem_of_cons in Ha as [->|Ha]; trivial.
      now apply IH.
    + intros H. apply IH. intros a Ha. apply H.
      now apply list_elem_of_further.
Qed.

Lemma omap_length_le {A B : Type} (f : A -> option B) (l : list A) :
  (length (omap f l) <= length l)%nat.
Proof.
  induction l as [|c l IH]; [reflexivity|].
  change (omap f (c :: l))
    with (match f c with Some b => b :: omap f l | None => omap f l end).
  simpl length. destruct (f c); simpl length; lia.
Qed.

Lemma filter_length_le' {A : Type} (P : A -> bool) (l : list A) :
  (length (List.filter P l) <= length l)%nat.
Proof.
  induction l as [|c l IH]; simpl; [lia|]. destruct (P c); simpl; lia.
Qed.

(** X13. The average gap without 2023 is null exactly when no row with
    another label has a price gap, so the sum is never divided by a count
    of zero; this covers the empty data. *)
Theorem avgGapEx2023_null_iff (data : list RowYoY) :
  Summary.avgGapEx2023 data = None <->
  forall r, r ∈ data -> Row.year (row r) <> "2023"%string ->
            Row.priceGap (row r) = None.
Proof.
  unfold Summary.avgGapEx2023. rewrite average_None, omap_nil_iff. split.
  - intros H r Hr Hy. apply H. apply list_elem_of_In, filter_In. split.
    + now apply list_elem_of_In.
    + apply negb_true_iff, String.eqb_neq. exact Hy.
  - intros H r Hr. apply list_elem_of_In, filter_In in Hr as [Hr Hy].
    apply H; [now apply list_elem_of_In|].
    apply String.eqb_neq, negb_true_iff. exact Hy.
Qed.

(** X14. A row labelled "2023", and a row without a price gap, do not count
    in the average gap: removing it from the data leaves the figure
    unchanged. *)
Theorem avgGapEx2023_skips (before after : list RowYoY) (r : RowYoY)
    (H : Row.year (row r) = "2023"%string \/ Row.priceGap (row r) = None) :
  Summary.avgGapEx2023 (before ++ r :: after)
  = Summary.avgGapEx2023 (before ++ after).
Proof.
  unfold Summary.avgGapEx2023. f_equal.
  rewrite !List.filter_app, !omap_app. f_equal. simpl.
  destruct H as [H|H].
  - rewrite H. reflexivity.
  - destruct (negb _); simpl; [rewrite H|]; reflexivity.
Qed.

Lemma avgGapEx2023_skips_witness :
  Summary.avgGapEx2023 useRowsWithYoY
  = Summary.avgGapEx2023 (transform Data.tables [2021; 2022; 2024; 2025]).
Proof.
  etransitivity; [|etransitivity].
  2: { apply (avgGapEx2023_skips (take 2 useRowsWithYoY)
                (drop 3 useRowsWithYoY)
                (addYoY buildRows 2 (buildRow Data.tables 2023))).
       left. reflexivity. }
  - vm_compute. reflexivity.
  - vm_compute. reflexivity.
Defined.

(** X15. The average gap is never NaN when the gaps it reads are finite:
    the empty case gives null, not 0 / 0. *)
Theorem avgGapEx2023_not_nan (data : list RowYoY) (a : number)
    (Hfin : forall r g, r ∈ data -> Row.priceGap (row r) = Some g ->
                        is_finite g = true)
    (Hlen : Z.of_nat (length data) < 2 ^ 32)
    (Ha : Summary.avgGapEx2023 data = Some a) :
  is_nan a = false.
Proof.
  unfold Summary.avgGapEx2023 in Ha. revert Ha. apply average_not_nan.
  - apply Forall_forall. intros g Hg.
    apply list_elem_of_omap in Hg as (r & Hr & Hg).
    apply list_elem_of_In, filter_In in Hr as [Hr _].
    apply (Hfin r g); [now apply list_elem_of_In | exact Hg].
  - eapply Z.le_lt_trans; [|exact Hlen]. apply Nat2Z.inj_le.
    etransitivity; [apply omap_length_le|]. apply filter_length_le'.
Qed.

Lemma avgGapEx2023_not_nan_witness :
  Summary.avgGapEx2023 useRowsWithYoY = Some (lit 105 1) /\
  is_nan (lit 105 1) = false.
Proof.
  assert (E : Summary.avgGapEx2023 useRowsWithYoY = Some (lit 105 1))
    by (vm_compute; reflexivity).
  split; [exact E|].
  apply (avgGapEx2023_not_nan useRowsWithYoY (lit 105 1)); [| reflexivity | exact E].
  intros r g Hr Hg.
  assert (A : forallb (fun r => match Row.priceGap (row r) with
                                | Some g => is_finite g
                                | None => true
                                end) useRowsWithYoY = true)
    by (vm_compute; reflexivity).
  rewrite forallb_forall in A. apply list_elem_of_In in Hr.
  specialize (A r Hr). rewrite Hg in A. exact A.
Defined.

(** X16. The average MIFCO quay price reads the entries of 2021 to 2024 of
    its table and nothing else: two sets of tables that agree on these four
    entries have the same average, and it is null exactly when none of the
    four is a number. *)
Theorem mifcoAveragePrice_reads_four_years (T1 T2 : Data.Tables)
    (H : forall y, y ∈ [2021; 2022; 2023; 2024] ->
           Data.mifcoLocalPrice T1 !! y = Data.mifcoLocalPrice T2 !! y) :
  Summary.mifcoAveragePrice T1 = Summary.mifcoAveragePrice T2 /\
  (Summary.mifcoAveragePrice T1 = None <->
   forall y, y ∈ [2021; 2022; 2023; 2024] ->
             orNull (Data.mifcoLocalPrice T2 !! y) = None).
Proof.
  assert (E : Summary.mifcoAveragePrice T1 = Summary.mifcoAveragePrice T2).
  { unfold Summary.mifcoAveragePrice. simpl.
    rewrite !H by (rewrite !elem_of_cons; tauto). reflexivity. }
  split; [exact E|]. rewrite E.
  unfold Summary.mifcoAveragePrice. rewrite average_None.
  apply omap_nil_iff.
Qed.

Lemma mifcoAveragePrice_reads_four_years_witness :
  Summary.mifcoAveragePrice tablesMifco2025 = Some (ofZ 17) /\
  Summary.mifcoAveragePrice Data.tables
  = Summary.mifcoAveragePrice tablesMifco2025.
Proof.
  split; [vm_compute; reflexivity|].
  apply (mifcoAveragePrice_reads_four_years Data.tables tablesMifco2025).
  intros y Hy. rewrite !elem_of_cons in Hy.
  destruct Hy as [->|[->|[->|[->|Hy]]]]; try reflexivity.
  now apply elem_of_nil in Hy.
Defined.

(** ** What a transformed row depends on *)

Lemma addYoY_ext (rows1 rows2 : list Row.t) (idx : nat) (r : Row.t) :
  ((0 < idx)%nat -> rows1 !! (idx - 1)%nat = rows2 !! (idx - 1)%nat) ->
  addYoY rows1 idx r = addYoY rows2 idx r.
Proof.
  intros H. unfold addYoY. destruct idx as [|i]; [reflexivity|].
  change (0 <? S i)%nat with true. cbv iota. rewrite H by lia. reflexivity.
Qed.

Lemma lookup_buildRowsOf (T : Data.Tables) (ys : list Z) (i : nat) :
  buildRowsOf T ys !! i = buildRow T <$> ys !! i.
Proof. apply list_lookup_fmap. Qed.

Lemma agree_on_one (T1 T2 : Data.Tables) (ys : list Z) (y : Z) :
  agree_on ys T1 T2 -> y ∈ ys -> buildRow T1 y = buildRow T2 y.
Proof. apply buildRow_ext. Qed.

Lemma transform_lookup_local (T1 T2 : Data.Tables) (ys1 ys2 : list Z) (i : nat) :
  ys1 !! i = ys2 !! i ->
  ((0 < i)%nat -> ys1 !! (i - 1)%nat = ys2 !! (i - 1)%nat) ->
  (forall j y, (i - 1 <= j <= i)%nat -> ys1 !! j = Some y ->
               buildRow T1 y = buildRow T2 y) ->
  transform T1 ys1 !! i = transform T2 ys2 !! i.
Proof.
  intros Hi Hp HT. rewrite !lookup_transform, <- Hi.
  destruct (ys1 !! i) as [y|] eqn:Ey; [|reflexivity]. simpl. f_equal.
  rewrite (HT i y) by (trivial; lia).
  apply addYoY_ext. intros Hpos. rewrite !lookup_buildRowsOf, <- Hp by exact Hpos.
  destruct (ys1 !! (i - 1)%nat) as [y'|] eqn:Ey'; [|reflexivity]. simpl.
  f_equal. apply (HT (i - 1)%nat); [lia | exact Ey'].
Qed.

(** X17. A transformed row depends on the table entries of its own year and
    of the year before it in the list, and on nothing else: tables that
    agree on these two years give the same row at that position. *)
Theorem transform_row_local (T1 T2 : Data.Tables) (ys : list Z) (i : nat)
    (H : agree_on (drop (i - 1) (take (S i) ys)) T1 T2) :
  transform T1 ys !! i = transform T2 ys !! i.
Proof.
  apply transform_lookup_local; trivial.
  intros j y Hj Hy. apply (agree_on_one _ _ _ _ H).
  apply list_elem_of_lookup. exists (j - (i - 1))%nat.
  rewrite lookup_drop, lookup_take_lt by lia.
  replace (i - 1 + (j - (i - 1)))%nat with j by lia. exact Hy.
Qed.

Lemma transform_row_local_witness :
  transform tablesMifco2025 Data.years !! 3%nat = useRowsWithYoY !! 3%nat.
Proof.
  apply (transform_row_local tablesMifco2025 Data.tables Data.years 3).
  intros y Hy. simpl in Hy. rewrite !elem_of_cons in Hy.
  destruct Hy as [->|[->|Hy]]; [| |now apply elem_of_nil in Hy];
    repeat apply conj; reflexivity.
Defined.

(** X18. Appending years leaves the rows already there unchanged: the first
    rows of the transform of a longer list are the transform of the shorter
    one. *)
Theorem transform_prefix (T : Data.Tables) (ys zs : list Z) :
  take (length ys) (transform T (ys ++ zs)) = transform T ys.
Proof.
  apply list_eq. intros i.
  destruct (Nat.lt_ge_cases i (length ys)) as [Hi|Hi].
  - rewrite lookup_take_lt by exact Hi.
    apply transform_lookup_local.
    + apply lookup_app_l. exact Hi.
    + intros _. apply lookup_app_l. lia.
    + reflexivity.
  - rewrite lookup_take_ge by exact Hi. symmetry.
    apply lookup_ge_None_2. rewrite length_transform. exact Hi.
Qed.

(** X19. The labels of the transformed rows, which the table uses as the
    keys of its lines, are pairwise distinct exactly when the years are. *)
Theorem row_keys_distinct (T : Data.Tables) (ys : list Z) :
  NoDup ((Row.year ∘ row) <$> transform T ys) <-> NoDup ys.
Proof.
  rewrite year_transform. apply NoDup_fmap. intros y1 y2. apply yearString_inj.
Qed.

(** ** The switches *)

(** X20. The switch "subsidy" has no effect on what is drawn: the subsidy
    line is in the price chart whatever the flags are, and a click changes
    the series of the charts exactly when it is on one of the other three
    switches. *)
Theorem subsidy_switch_is_inert (id : Toggles.switch) (st : Toggles.t) :
  (Toggles.charts (Toggles.click id st) = Toggles.charts st
   <-> id = Toggles.subsidy) /\
  "subsidyMvrMillions"%string ∈ Toggles.priceChart st /\
  Toggles.click id (Toggles.click id st) = st.
Proof.
  destruct st as [r s g m]. split; [|split].
  - destruct id, r, s, g, m; split; intros H;
      try reflexivity; discriminate.
  - destruct g, m; vm_compute; repeat constructor.
  - destruct id; simpl; rewrite negb_involutive; reflexivity.
Qed.

(** ** The price axis *)

Lemma SFcompare_finite (s1 s2 : bool) (m1 m2 : positive) (e1 e2 : Z) :
  SFcompare (S754_finite s1 m1 e1) (S754_finite s2 m2 e2)
  = Some match s1, s2 with
         | true, false => Lt
         | false, true => Gt
         | false, false =>
             match e1 ?= e2 with
             | Lt => Lt
             | Gt => Gt
             | Eq => (m1 ?= m2)%positive
             end
         | true, true =>
             match e1 ?= e2 with
             | Lt => Gt
             | Gt => Lt
             | Eq => CompOpp (m1 ?= m2)%positive
             end
         end.
Proof. reflexivity. Qed.

Lemma SFltb_rank (x y : number) :
  is_nan x = false -> is_nan y = false ->
  (SFltb x y = true <-> rank_lt (rank x) (rank y)).
Proof.
  intros Hx Hy. unfold SFltb.
  destruct x as [sx|sx| |sx mx ex]; try discriminate;
    destruct y as [sy|sy| |sy my ey]; try discriminate;
    try (destruct sx; try destruct sy; simpl;
         split; intros H; try discriminate; try reflexivity; lia);
    try (destruct sy; simpl;
         split; intros H; try discriminate; try reflexivity; lia).
  rewrite SFcompare_finite. unfold rank, rank_lt.
  destruct sx, sy;
    try (split; intros H; try discriminate; try reflexivity; lia);
    destruct (Z.compare_spec ex ey) as [Ce|Ce|Ce];
    destruct (Pos.compare_spec mx my) as [Cm|Cm|Cm];
    simpl; split; intros H; try discriminate; try reflexivity; lia.
Qed.

Lemma SFleb_rank (x y : number) :
  is_nan x = false -> is_nan y = false ->
  (SFleb x y = true <-> rank_le (rank x) (rank y)).
Proof.
  intros Hx Hy. unfold SFleb.
  destruct x as [sx|sx| |sx mx ex]; try discriminate;
    destruct y as [sy|sy| |sy my ey]; try discriminate;
    try (destruct sx; try destruct sy; simpl;
         split; intros H; try discriminate; try reflexivity; lia);
    try (destruct sy; simpl;
         split; intros H; try discriminate; try reflexivity; lia).
  rewrite SFcompare_finite. unfold rank, rank_le.
  destruct sx, sy;
    try (split; intros H; try discriminate; try reflexivity; lia);
    destruct (Z.compare_spec ex ey) as [Ce|Ce|Ce];
    destruct (Pos.compare_spec mx my) as [Cm|Cm|Cm];
    simpl; split; intros H; try discriminate; try reflexivity; lia.
Qed.

Lemma rank_le_trans (a b c : Z * Z * Z) :
  rank_le a b -> rank_le b c -> rank_le a c.
Proof.
  destruct a as [[a1 a2] a3], b as [[b1 b2] b3], c as [[c1 c2] c3].
  unfold rank_le. lia.
Qed.

Lemma rank_le_refl (a : Z * Z * Z) : rank_le a a.
Proof. destruct a as [[a1 a2] a3]. unfold rank_le. lia. Qed.

Lemma rank_total (a b : Z * Z * Z) : rank_lt a b \/ rank_le b a.
Proof.
  destruct a as [[a1 a2] a3], b as [[b1 b2] b3].
  unfold rank_lt, rank_le. lia.
Qed.

Lemma rank_lt_le (a b : Z * Z * Z) : rank_lt a b -> rank_le a b.
Proof.
  destruct a as [[a1 a2] a3], b as [[b1 b2] b3].
  unfold rank_lt, rank_le. lia.
Qed.

Lemma min_step_spec (lowest x : number) :
  is_nan lowest = false -> is_nan x = false ->
  is_nan (min_step lowest x) = false /\
  rank_le (rank (min_step lowest x)) (rank lowest) /\
  rank_le (rank (min_step lowest x)) (rank x).
Proof.
  intros Hl Hx. unfold min_step. rewrite Hl, Hx.
  assert (G : is_nan (if SFltb x lowest then x else lowest) = false /\
              rank_le (rank (if SFltb x lowest then x else lowest)) (rank lowest) /\
              rank_le (rank (if SFltb x lowest then x else lowest)) (rank x)).
  { destruct (SFltb x lowest) eqn:E.
    - apply SFltb_rank in E; trivial.
      auto using rank_le_refl, rank_lt_le.
    - split; [exact Hl|]. split; [apply rank_le_refl|].
      destruct (rank_total (rank x) (rank lowest)) as [H|H]; trivial.
      apply SFltb_rank in H; trivial. congruence. }
  destruct x as [[]|sx| |sx mx ex]; try exact G;
    destruct lowest as [[]|sl| |sl ml el]; exact G.
Qed.

Lemma max_step_spec (highest x : number) :
  is_nan highest = false -> is_nan x = false ->
  is_nan (max_step highest x) = false /\
  rank_le (rank highest) (rank (max_step highest x)) /\
  rank_le (rank x) (rank (max_step highest x)).
Proof.
  intros Hl Hx. unfold max_step. rewrite Hl, Hx.
  assert (G : is_nan (if SFltb highest x then x else highest) = false /\
              rank_le (rank highest) (rank (if SFltb highest x then x else highest)) /\
              rank_le (rank x) (rank (if SFltb highest x then x else highest))).
  { destruct (SFltb highest x) eqn:E.
    - apply SFltb_rank in E; trivial.
      auto using rank_le_refl, rank_lt_le.
    - split; [exact Hl|]. split; [apply rank_le_refl|].
      destruct (rank_total (rank highest) (rank x)) as [H|H]; trivial.
      apply SFltb_rank in H; trivial. congruence. }
  destruct x as [[]|sx| |sx mx ex]; try exact G;
    destruct highest as [[]|sl| |sl ml el]; exact G.
Qed.

Lemma fold_min_spec (args : list number) (acc : number) :
  Forall (fun v => is_nan v = false) args -> is_nan acc = false ->
  is_nan (fold_left min_step args acc) = false /\
  rank_le (rank (fold_left min_step args acc)) (rank acc) /\
  forall x, x ∈ args -> rank_le (rank (fold_left min_step args acc)) (rank x).
Proof.
  intros H. revert acc. induction H as [|v args Hv _ IH]; intros acc Hacc; simpl.
  - split; [exact Hacc|]. split; [apply rank_le_refl|].
    intros x Hx. now apply elem_of_nil in Hx.
  - destruct (min_step_spec acc v Hacc Hv) as (N & L1 & L2).
    destruct (IH _ N) as (N' & L' & A'). split; [exact N'|]. split.
    + eapply rank_le_trans; eassumption.
    + intros x Hx. apply elem_of_cons in Hx as [->|Hx]; [|now apply A'].
      eapply rank_le_trans; eassumption.
Qed.

Lemma fold_max_spec (args : list number) (acc : number) :
  Forall (fun v => is_nan v = false) args -> is_nan acc = false ->
  is_nan (fold_left max_step args acc) = false /\
  rank_le (rank acc) (rank (fold_left max_step args acc)) /\
  forall x, x ∈ args -> rank_le (rank x) (rank (fold_left max_step args acc)).
Proof.
  intros H. revert acc. induction H as [|v args Hv _ IH]; intros acc Hacc; simpl.
  - split; [exact Hacc|]. split; [apply rank_le_refl|].
    intros x Hx. now apply elem_of_nil in Hx.
  - destruct (max_step_spec acc v Hacc Hv) as (N & L1 & L2).
    destruct (IH _ N) as (N' & L' & A'). split; [exact N'|]. split.
    + eapply rank_le_trans; eassumption.
    + intros x Hx. apply elem_of_cons in Hx as [->|Hx]; [|now apply A'].
      eapply rank_le_trans; eassumption.
Qed.

Lemma orElse_not_nan (v : option number) (d : number) :
  (forall p, v = Some p -> is_nan p = false) -> is_nan d = false ->
  is_nan (orElse v d) = false.
Proof. destruct v as [p|]; simpl; auto. Qed.

(** X21. When no price of the data is NaN, the lowest price under the left
    axis is at most every local and global price of every row, and the
    highest is at least every one of them, in the order of the numbers. *)
Theorem price_axis_bounds (data : list RowYoY) (d : RowYoY) (p : number)
    (Hnn : forall d' p', d' ∈ data -> priceOf d' p' -> is_nan p' = false)
    (Hd : d ∈ data) (Hp : priceOf d p) :
  leb (lowestPrice data) p = true /\ leb p (highestPrice data) = true /\
  priceAxisMin data = sub (lowestPrice data) (ofZ 2) /\
  priceAxisMax data = add (highestPrice data) (ofZ 2).
Proof.
  assert (Np : is_nan p = false) by exact (Hnn d p Hd Hp).
  set (lo := fun d : RowYoY =>
         Math_min [orElse (Row.localPrice (row d)) (S754_infinity false);
                   orElse (Row.globalPrice (row d)) (S754_infinity false)]).
  set (hi := fun d : RowYoY =>
         Math_max [orElse (Row.localPrice (row d)) (S754_infinity true);
                   orElse (Row.globalPrice (row d)) (S754_infinity true)]).
  assert (Hin : forall s d', d' ∈ data ->
            Forall (fun v => is_nan v = false)
              [orElse (Row.localPrice (row d')) (S754_infinity s);
               orElse (Row.globalPrice (row d')) (S754_infinity s)]).
  { intros s d' Hd'. repeat constructor; apply orElse_not_nan; trivial;
      intros q Hq; apply (Hnn d' q Hd'); [left | right]; exact Hq. }
  assert (Hlo : forall d', d' ∈ data -> is_nan (lo d') = false /\
            forall q, priceOf d' q -> rank_le (rank (lo d')) (rank q)).
  { intros d' Hd'.
    destruct (fold_min_spec _ (S754_infinity false) (Hin false d' Hd') eq_refl)
      as (N & _ & A).
    split; [exact N|]. intros q [Hq|Hq]; apply A; rewrite Hq;
      rewrite !elem_of_cons; auto. }
  assert (Hhi : forall d', d' ∈ data -> is_nan (hi d') = false /\
            forall q, priceOf d' q -> rank_le (rank q) (rank (hi d'))).
  { intros d' Hd'.
    destruct (fold_max_spec _ (S754_infinity true) (Hin true d' Hd') eq_refl)
      as (N & _ & A).
    split; [exact N|]. intros q [Hq|Hq]; apply A; rewrite Hq;
      rewrite !elem_of_cons; auto. }
  assert (Flo : Forall (fun v => is_nan v = false) (map lo data)).
  { apply Forall_forall. intros v Hv. apply list_elem_of_fmap in Hv as (d' & -> & Hd').
    now apply Hlo. }
  assert (Fhi : Forall (fun v => is_nan v = false) (map hi data)).
  { apply Forall_forall. intros v Hv. apply list_elem_of_fmap in Hv as (d' & -> & Hd').
    now apply Hhi. }
  destruct (fold_min_spec _ (S754_infinity false) Flo eq_refl) as (N1 & _ & A1).
  destruct (fold_max_spec _ (S754_infinity true) Fhi eq_refl) as (N2 & _ & A2).
  split; [|split; [|split; reflexivity]].
  - apply SFleb_rank; trivial.
    apply rank_le_trans with (rank (lo d)).
    + apply A1. apply list_elem_of_fmap. now exists d.
    + now apply Hlo.
  - apply SFleb_rank; trivial.
    apply rank_le_trans with (rank (hi d)).
    + now apply Hhi.
    + apply A2. apply list_elem_of_fmap. now exists d.
Qed.

Lemma lowest_of_none (data : list RowYoY) :
  (forall d, d ∈ data ->
     Row.localPrice (row d) = None /\ Row.globalPrice (row d) = None) ->
  lowestPrice data = S754_infinity false /\
  highestPrice data = S754_infinity true.
Proof.
  unfold lowestPrice, highestPrice, Math_min, Math_max.
  induction data as [|d data IH]; intros H; [split; reflexivity|].
  destruct (H d (list_elem_of_here _ _)) as [E1 E2].
  simpl. rewrite E1, E2. simpl.
  apply IH. intros d' Hd'. apply H. now apply list_elem_of_further.
Qed.

(** X22. When no row has a local or a global price, which includes the
    empty data, the left axis runs from Infinity down to -Infinity. *)
Theorem price_axis_without_prices (data : list RowYoY)
    (H : forall d, d ∈ data ->
           Row.localPrice (row d) = None /\ Row.globalPrice (row d) = None) :
  priceAxisMin data = S754_infinity false /\
  priceAxisMax data = S754_infinity true.
Proof.
  unfold priceAxisMin, priceAxisMax.
  destruct (lowest_of_none data H) as [-> ->]. split; reflexivity.
Qed.

Lemma price_axis_without_prices_witness :
  priceAxisMin [] = S754_infinity false /\
  priceAxisMax [] = S754_infinity true.
Proof.
  apply (price_axis_without_prices []).
  intros d Hd. now apply elem_of_nil in Hd.
Defined.

Lemma price_axis_bounds_witness :
  let d := addYoY buildRows 3 (buildRow Data.tables 2024) in
  lowestPrice useRowsWithYoY = lit 140 1 /\
  highestPrice useRowsWithYoY = lit 262 1 /\
  leb (lowestPrice useRowsWithYoY) (lit 231 1) = true /\
  leb (lit 231 1) (highestPrice useRowsWithYoY) = true.
Proof.
  cbv zeta. split; [vm_compute; reflexivity|]. split; [vm_compute; reflexivity|].
  assert (A : forallb (fun d => match Row.localPrice (row d) with
                                | Some p => negb (is_nan p)
                                | None => true
                                end &&
                                match Row.globalPrice (row d) with
                                | Some p => negb (is_nan p)
                                | None => true
                                end) useRowsWithYoY = true)
    by (vm_compute; reflexivity).
  rewrite forallb_forall in A.
  refine (let H := price_axis_bounds useRowsWithYoY
                     (addYoY buildRows 3 (buildRow Data.tables 2024))
                     (lit 231 1) _ _ _ in conj (proj1 H) (proj1 (proj2 H))).
  - intros d' p' Hd' Hp'. apply list_elem_of_In in Hd'.
    specialize (A d' Hd'). apply andb_true_iff in A as [A1 A2].
    destruct Hp' as [Hp'|Hp']; rewrite Hp' in *;
      [apply negb_true_iff in A1; exact A1 | apply negb_true_iff in A2; exact A2].
  - apply list_elem_of_lookup. exists 3%nat. vm_compute. reflexivity.
  - right. vm_compute. reflexivity.
Defined.

(** ** [toFixed] with any number of digits *)

Lemma scaled_close (d : nat) (m : positive) (e : Z) :
  e < 0 ->
  Z.abs (2 * (scaled d m e * 2 ^ (- e) - 10 ^ Z.of_nat d * Z.pos m))
  <= 2 ^ (- e).
Proof.
  intros He. unfold scaled.
  destruct (0 <=? e) eqn:E; [apply Z.leb_le in E; lia|].
  replace (1 - e) with (Z.succ (- e)) by lia.
  rewrite Z.pow_succ_r by lia.
  assert (HD : 0 < 2 ^ (- e)) by (apply Z.pow_pos_nonneg; lia).
  set (D := 2 ^ (- e)) in *.
  set (c := 10 ^ Z.of_nat d) in *.
  replace (2 * c * Z.pos m) with (2 * (c * Z.pos m)) by lia.
  set (cm := c * Z.pos m) in *.
  pose proof (Z.div_mod (2 * cm + D) (2 * D) ltac:(lia)) as Hdm.
  pose proof (Z.mod_pos_bound (2 * cm + D) (2 * D) ltac:(lia)) as Hb.
  set (n := (2 * cm + D) / (2 * D)) in *.
  set (r := (2 * cm + D) mod (2 * D)) in *.
  lia.
Qed.

Lemma scaled_nonneg (d : nat) (m : positive) (e : Z) : 0 <= scaled d m e.
Proof.
  assert (Hc : 0 < 10 ^ Z.of_nat d) by (apply Z.pow_pos_nonneg; lia).
  unfold scaled. destruct (0 <=? e) eqn:E.
  - apply Z.leb_le in E. assert (0 < 2 ^ e) by (apply Z.pow_pos_nonneg; lia).
    nia.
  - apply Z.leb_gt in E. apply Z.div_pos.
    + assert (0 < 2 ^ (- e)) by (apply Z.pow_pos_nonneg; lia). nia.
    + apply Z.pow_pos_nonneg; lia.
Qed.

Lemma scaled_real (d : nat) (m : positive) (e : Z) :
  let c := IZR (10 ^ Z.of_nat d) in
  (- (/ 2 * / c) <= IZR (scaled d m e) * / c - IZR (Z.pos m) * pow2 e
   <= / 2 * / c)%R.
Proof.
  cbv zeta.
  assert (Hc : 0 < 10 ^ Z.of_nat d) by (apply Z.pow_pos_nonneg; lia).
  apply IZR_lt in Hc.
  assert (Hic : (0 < / IZR (10 ^ Z.of_nat d))%R)
    by (apply Rinv_0_lt_compat; exact Hc).
  assert (Hcc : (IZR (10 ^ Z.of_nat d) * / IZR (10 ^ Z.of_nat d) = 1)%R)
    by (field; lra).
  destruct (Z_le_gt_dec 0 e) as [He | He].
  - unfold scaled.
    replace (0 <=? e) with true by (symmetry; apply Z.leb_le; lia).
    rewrite !mult_IZR, <- pow2_IZR by lia.
    set (c := IZR (10 ^ Z.of_nat d)) in *. set (ic := (/ c)%R) in *.
    replace (c * IZR (Z.pos m) * pow2 e * ic)%R
      with ((c * ic) * (IZR (Z.pos m) * pow2 e))%R by ring.
    rewrite Hcc. lra.
  - pose proof (scaled_close d m e ltac:(lia)) as Hs.
    set (t := scaled d m e) in *.
    assert (HD : 0 < 2 ^ (- e)) by (apply Z.pow_pos_nonneg; lia).
    assert (Hp : pow2 e = (/ IZR (2 ^ (- e)))%R).
    { rewrite <- (pow2_neg_val (- e)) by lia. f_equal. lia. }
    rewrite Hp. clear Hp.
    set (D := 2 ^ (- e)) in *.
    apply Z.abs_le in Hs. destruct Hs as [Hs1 Hs2].
    apply IZR_le in Hs1, Hs2. apply IZR_lt in HD.
    rewrite opp_IZR in Hs1.
    rewrite !mult_IZR, !minus_IZR, !mult_IZR in Hs1, Hs2.
    set (c := IZR (10 ^ Z.of_nat d)) in *. set (ic := (/ c)%R) in *.
    assert (Hinv : (IZR D * / IZR D = 1)%R) by (field; lra).
    assert (Hpos : (0 < / IZR D)%R) by (apply Rinv_0_lt_compat; lra).
    set (i := (/ IZR D)%R) in *.
    set (w := (IZR t * IZR D - c * IZR (Z.pos m))%R) in *.
    assert (E1 : (IZR t * ic - IZR (Z.pos m) * i = w * i * ic)%R).
    { unfold w.
      transitivity (IZR t * (IZR D * i) * ic - (c * ic) * IZR (Z.pos m) * i)%R.
      - rewrite Hinv, Hcc. ring.
      - ring. }
    rewrite E1.
    assert (W1 : (- IZR D * i <= 2 * w * i)%R)
      by (apply Rmult_le_compat_r; lra).
    assert (W2 : (2 * w * i <= IZR D * i)%R)
      by (apply Rmult_le_compat_r; lra).
    assert (W3 : (- (1 / 2) <= w * i <= 1 / 2)%R) by lra.
    destruct W3 as [W3 W4].
    apply (Rmult_le_compat_r ic) in W3, W4; lra.
Qed.

Lemma scaled_tenths (m : positive) (e : Z) : scaled 1 m e = tenths m e.
Proof.
  unfold scaled, tenths. change (10 ^ Z.of_nat 1) with 10.
  replace (2 * 10 * Z.pos m) with (20 * Z.pos m) by lia. reflexivity.
Qed.

Lemma toFixed_out_of_range (d : nat) (x : number) :
  (100 < d)%nat -> toFixed d x = RangeError /\ roundTo d x = RangeError.
Proof.
  intros Hd. unfold roundTo, toFixed.
  replace (100 <? d)%nat with true by (symmetry; apply Nat.ltb_lt; exact Hd).
  split; reflexivity.
Qed.

Lemma roundTo_2 (x : number) : roundTo 2 x = Normal (round2 x).
Proof. reflexivity. Qed.

(** X23. [toFixed] with [d] digits, [d] at most 100, on a finite number
    below 10^21 in magnitude throws nothing and gives the decimal n / 10^d
    nearest to the magnitude, so at most half a unit of the last digit
    away, with the sign of the number (none for a zero); with one digit,
    reading the string back is [round1]. *)
Theorem toFixed_close (d : nat) (x : number)
    (Hd : (d <= 100)%nat)
    (Hx : is_finite x = true)
    (Hb : (Fabs x < 1000000000000000000000)%R) :
  exists n,
    toFixed d x
    = Normal (DecFixed (if is_zero x then false else Fsign x) n d) /\
    0 <= n /\
    (Rabs (IZR n / IZR (10 ^ Z.of_nat d) - Fabs x)
     <= 1 / (2 * IZR (10 ^ Z.of_nat d)))%R /\
    roundTo 1 x = Normal (round1 x).
Proof.
  assert (Hc : 0 < 10 ^ Z.of_nat d) by (apply Z.pow_pos_nonneg; lia).
  apply IZR_lt in Hc.
  assert (R : (100 <? d)%nat = false) by (apply Nat.ltb_ge; exact Hd).
  unfold roundTo, toFixed. rewrite R. change (100 <? 1)%nat with false. cbv iota.
  destruct x as [s|s| |s m e]; try discriminate.
  - exists 0. repeat split; try reflexivity.
    simpl. unfold Rdiv. rewrite Rmult_0_l, Rminus_0_r, Rabs_R0.
    apply Rmult_le_pos; [lra|]. apply Rlt_le, Rinv_0_lt_compat. lra.
  - exists (scaled d m e). unfold Fabs in Hb.
    assert (G : ge_1e21 m e = false) by now apply ge_1e21_small.
    split; [simpl; now rewrite G|]. split; [apply scaled_nonneg|]. split.
    + pose proof (scaled_real d m e) as H. cbv zeta in H.
      unfold Fabs, Rdiv. rewrite Rmult_1_l, Rinv_mult.
      apply Rabs_le. exact H.
    + unfold round1, fixed, toFixed1. rewrite G, scaled_tenths.
      reflexivity.
Qed.

Lemma toFixed_close_witness :
  toFixed 2 (lit 1125 3) = Normal (DecFixed false 113 2) /\
  exists n,
    toFixed 2 (lit 1125 3) = Normal (DecFixed false n 2) /\ 0 <= n /\
    (Rabs (IZR n / IZR (10 ^ Z.of_nat 2) - Fabs (lit 1125 3))
     <= 1 / (2 * IZR (10 ^ Z.of_nat 2)))%R /\
    roundTo 1 (lit 1125 3) = Normal (round1 (lit 1125 3)).
Proof.
  split; [vm_compute; reflexivity|].
  apply (toFixed_close 2 (lit 1125 3)); [lia | reflexivity |].
  change (Fabs (lit 1125 3))
    with (IZR (Z.pos 5066549580791808) * pow2 (-52))%R.
  change (-52) with (Z.opp 52). rewrite pow2_neg_val by lia.
  change (2 ^ 52) with 4503599627370496. lra.
Defined.

(** ** The revenue loss in billions *)

Lemma thousand_value : ofZ 1000 = S754_finite false 8796093022208000 (-43).
Proof. reflexivity. Qed.

Lemma thousand_real : (IZR (Z.pos 8796093022208000) * pow2 (-43) = 1000)%R.
Proof.
  change (-43) with (Z.opp 43).
  rewrite (pow2_neg_val 43) by lia. change (2 ^ 43) with 8796093022208. lra.
Qed.

Lemma pow2_22 : pow2 22 = 4194304%R.
Proof. now rewrite pow2_IZR by lia. Qed.

Lemma pow2_23 : pow2 23 = 8388608%R.
Proof. now rewrite pow2_IZR by lia. Qed.

Lemma pow2_m29 : pow2 (-29) = (/ 536870912)%R.
Proof. change (-29) with (Z.opp 29). now rewrite pow2_neg_val by lia. Qed.

Lemma pow2_m30 : pow2 (-30) = (/ 1073741824)%R.
Proof. change (-30) with (Z.opp 30). now rewrite pow2_neg_val by lia. Qed.

Lemma Fabs_small (s : bool) (m : positive) (e k : Z) :
  Z.pos (digits2_pos m) + e <= k -> (Fabs (S754_finite s m e) <= pow2 k)%R.
Proof.
  intros H. unfold Fabs. pose proof (Fabs_digits m e) as [_ Hd].
  apply pow2_le in H. lra.
Qed.

Lemma div_thousand_close (v : number) :
  is_finite v = true -> (Fabs v <= pow2 31)%R ->
  let x := div v (ofZ 1000) in
  is_finite x = true /\
  (- (3 / 2 * pow2 (-30)) <= F2R x - F2R v / 1000 <= 3 / 2 * pow2 (-30))%R /\
  (Fabs x <= pow2 22)%R.
Proof.
  intros Hv Hb. cbv zeta. rewrite thousand_value.
  rewrite pow2_m30, pow2_22. rewrite pow2_31 in Hb.
  destruct v as [s|s| |s m e]; try discriminate.
  - unfold div. simpl. rewrite !F2R_zero. repeat split; trivial; lra.
  - pose proof (div_close s false m 8796093022208000 e (-43) 22) as H.
    cbv zeta in H. rewrite thousand_real in H.
    change (fexp64 (22 + 1)) with (-30) in H.
    unfold Fabs in Hb. rewrite pow2_22, pow2_m30 in H.
    destruct (H ltac:(lra) ltac:(lia) ltac:(lia)) as (F & S & _ & B).
    change (div (S754_finite s m e) (S754_finite false 8796093022208000 (-43)))
      with (SFdiv 53 1024 (S754_finite s m e)
              (S754_finite false 8796093022208000 (-43))).
    split; [exact F|].
    rewrite (F2R_of_sign _ _ S), F2R_finite, xorb_false_r.
    split; [destruct s; lra | lra].
Qed.

Lemma round2_close (x : number) :
  is_finite x = true -> (Fabs x <= pow2 22)%R ->
  let r := round2 x in
  is_finite r = true /\
  (- (1 / 200 + 3 / 2 * pow2 (-29)) <= F2R r - F2R x
   <= 1 / 200 + 3 / 2 * pow2 (-29))%R.
Proof.
  intros Hx Hb. cbv zeta. rewrite pow2_m29. rewrite pow2_22 in Hb.
  destruct x as [s|s| |s m e]; try discriminate.
  - unfold round2. simpl. rewrite !F2R_zero. split; trivial; lra.
  - unfold Fabs in Hb.
    assert (G : ge_1e21 m e = false) by (apply ge_1e21_small; lra).
    pose proof (scaled_real 2 m e) as Ht. cbv zeta in Ht.
    change (10 ^ Z.of_nat 2) with 100 in Ht.
    pose proof (scaled_nonneg 2 m e) as Hn.
    unfold round2, fixed. rewrite G. unfold NumberOf.
    change (Z.to_pos (10 ^ Z.of_nat 2)) with 100%positive.
    destruct (scaled 2 m e) as [|p|p]; [| |lia].
    + rewrite F2R_zero, F2R_finite. split; trivial. destruct s; lra.
    + pose proof (div_close s false p 100 0 0 23) as H.
      cbv zeta in H. rewrite pow2_0, pow2_23 in H.
      change (fexp64 (23 + 1)) with (-29) in H. rewrite pow2_m29 in H.
      destruct (H ltac:(lra) ltac:(lia) ltac:(lia)) as (F & S & _ & B).
      change (div (S754_finite s p 0) (S754_finite false 100 0))
        with (SFdiv 53 1024 (S754_finite s p 0) (S754_finite false 100 0)).
      split; [exact F|].
      rewrite (F2R_of_sign _ _ S), F2R_finite, xorb_false_r.
      destruct s; lra.
Qed.

(** X24. The revenue loss in billions is the loss in millions over 1000 to
    two decimals: for a finite loss of at most 2^31 millions the two differ
    by at most 0.005 and a rounding error below 10^-8. *)
Theorem revenueLossMvrBn_close (data : list RowYoY) (M : number)
    (HM : Summary.revenueLossMvrM data = Some M)
    (Hf : is_finite M = true) (Hb : (Fabs M <= pow2 31)%R) :
  exists Bn,
    Summary.revenueLossMvrBn data = Some Bn /\ is_finite Bn = true /\
    (Rabs (F2R Bn - F2R M / 1000) <= 1 / 200 + / 100000000)%R.
Proof.
  unfold Summary.revenueLossMvrBn. rewrite HM. eexists. split; [reflexivity|].
  destruct (div_thousand_close M Hf Hb) as (F1 & B1 & L1).
  destruct (round2_close _ F1 L1) as (F2 & B2).
  split; [exact F2|]. rewrite pow2_m30 in B1. rewrite pow2_m29 in B2.
  apply Rabs_le. lra.
Qed.

Lemma revenueLossMvrBn_close_witness :
  Summary.revenueLossMvrM useRowsWithYoY = Some (lit 9332 1) /\
  Summary.revenueLossMvrBn useRowsWithYoY = Some (lit 93 2) /\
  exists Bn,
    Summary.revenueLossMvrBn useRowsWithYoY = Some Bn /\ is_finite Bn = true /\
    (Rabs (F2R Bn - F2R (lit 9332 1) / 1000) <= 1 / 200 + / 100000000)%R.
Proof.
  split; [vm_compute; reflexivity|]. split; [vm_compute; reflexivity|].
  apply (revenueLossMvrBn_close useRowsWithYoY (lit 9332 1));
    [vm_compute; reflexivity | reflexivity |].
  change (lit 9332 1) with (S754_finite false 8208514008324506 (-43)).
  apply Fabs_small. vm_compute. discriminate.
Defined.

(** ** Too few rows for a headline *)

(** X25. With two rows or fewer there is no third row from the end: the
    previous row is undefined, so the price change and the four headline
    changes are null; the latest row is the first of two rows and undefined
    otherwise. *)
Theorem headline_on_short_data (data : list RowYoY)
    (H : (length data <= 2)%nat) :
  Dashboard.prev data = None /\
  Dashboard.latest data
  = (if (length data =? 2)%nat then data !! 0%nat else None) /\
  Dashboard.priceCollapse data = None /\
  Dashboard.revenueDrop data = None /\
  Dashboard.subsidyYoY data = None /\
  Dashboard.purchasesDrop data = None /\
  Dashboard.exportsDrop data = None.
Proof.
  assert (P : Dashboard.prev data = None).
  { unfold Dashboard.prev, Dashboard.at_index.
    replace (Z.of_nat (length data) - 3 <? 0) with true
      by (symmetry; apply Z.ltb_lt; lia).
    reflexivity. }
  assert (C : forall f, Dashboard.change data f = None).
  { intros f. unfold Dashboard.change. rewrite P. simpl.
    destruct (Dashboard.field (Dashboard.latest data) f); reflexivity. }
  split; [exact P|]. split.
  - destruct data as [|a [|b [|c l]]]; try reflexivity. simpl in H. lia.
  - unfold Dashboard.priceCollapse, Dashboard.revenueDrop,
      Dashboard.subsidyYoY, Dashboard.purchasesDrop, Dashboard.exportsDrop.
    rewrite !C, P. repeat split. apply yoy_null_prev.
Qed.

Lemma headline_on_short_data_witness :
  let data := transform Data.tables [2021; 2022] in
  Dashboard.latest data = data !! 0%nat /\
  Dashboard.revenueDrop data = None.
Proof.
  cbv zeta.
  destruct (headline_on_short_data (transform Data.tables [2021; 2022])
              (le_n 2)) as (_ & L & _ & R & _).
  split; [exact L | exact R].
Defined.
